(** * aibash: record, transcribe, generate, print

    A shallow embedding of [main.go] (module [aibash]) and the properties of
    its pipeline.  The program is almost entirely effectful, so the embedding
    is a state-and-error monad over an explicit process state (environment,
    files, standard output, the atomic stop flag, and a trace of the calls
    made to the outside world), run against a [World] that fixes what the
    outside world answers (device reads, file-system faults, HTTP replies,
    and the moments at which the two watcher goroutines fire).

    Layout: Go library functions the program calls ([strings], [fmt],
    [encoding/json], [go-audio/wav]), then the program itself, then the
    interleaving semantics of the recording phase, then the theorems. *)

From Stdlib Require Import ZArith List String Ascii Lia Bool DecimalString.
From stdpp Require Import base gmap strings list.
Import ListNotations.

(* ===================================================================== *)
(** * Go [strings] and [fmt] on byte strings                              *)
(* ===================================================================== *)

(** Go strings are byte sequences; they are modelled by [string] (a list of
    8-bit [ascii]), non-ASCII text being present as its UTF-8 bytes. *)

Module Strings.

(** UTF-8 encoding of a code point below U+10000. *)
Definition utf8 (r : N) : list ascii :=
  if (r <? 0x80)%N then [ascii_of_N r]
  else if (r <? 0x800)%N then
    [ascii_of_N (0xC0 + r / 64); ascii_of_N (0x80 + r mod 64)]
  else
    [ascii_of_N (0xE0 + r / 4096); ascii_of_N (0x80 + (r / 64) mod 64);
     ascii_of_N (0x80 + r mod 64)].

(** The code points for which [unicode.IsSpace] holds: the six ASCII ones
    of the [asciiSpace] table first. *)
Definition unicodeSpace : list N :=
  [0x09; 0x0A; 0x0B; 0x0C; 0x0D; 0x20; 0x85; 0xA0; 0x1680;
   0x2000; 0x2001; 0x2002; 0x2003; 0x2004; 0x2005; 0x2006; 0x2007;
   0x2008; 0x2009; 0x200A; 0x2028; 0x2029; 0x202F; 0x205F; 0x3000]%N.

Definition spaceTokens : list (list ascii) :=
  Eval cbv in map utf8 unicodeSpace.

(** [stripPrefix p s] is [Some r] exactly when [s = p ++ r]. *)
Fixpoint stripPrefix (p s : list ascii) : option (list ascii) :=
  match p, s with
  | [], _ => Some s
  | a :: p', b :: s' => if Ascii.eqb a b then stripPrefix p' s' else None
  | _ :: _, [] => None
  end.

Fixpoint stripAny (toks : list (list ascii)) (s : list ascii)
  : option (list ascii) :=
  match toks with
  | [] => None
  | t :: ts =>
      match stripPrefix t s with
      | Some r => Some r
      | None => stripAny ts s
      end
  end.

(** Drop leading tokens, one per unit of fuel. *)
Fixpoint trimLeft (toks : list (list ascii)) (fuel : nat) (s : list ascii)
  : list ascii :=
  match fuel with
  | O => s
  | S fuel' =>
      match stripAny toks s with
      | Some r => trimLeft toks fuel' r
      | None => s
      end
  end.

Definition TrimLeftSpace (s : list ascii) : list ascii :=
  trimLeft spaceTokens (length s) s.

Definition TrimRightSpace (s : list ascii) : list ascii :=
  rev (trimLeft (map (@rev ascii) spaceTokens) (length s) (rev s)).

(** [strings.TrimSpace]: all leading and trailing white space removed, as
    defined by Unicode.  The encoded white-space runes are stripped from
    the left until none leads, then from the right of what remains. *)
Definition TrimSpace (s : string) : string :=
  string_of_list_ascii
    (TrimRightSpace (TrimLeftSpace (list_ascii_of_string s))).





(** [strings.Contains s substr]. *)
Fixpoint Contains (s substr : string) : bool :=
  String.prefix substr s ||
  match s with
  | EmptyString => false
  | String _ s' => Contains s' substr
  end.

(** The [%d] verb of [fmt] on an [int]: decimal digits, [-] when negative. *)
Definition itoa (z : Z) : string := NilZero.string_of_int (Z.to_int z).

(** Lower-casing of an ASCII letter. *)
Definition lower (c : ascii) : ascii :=
  let n := nat_of_ascii c in
  if (65 <=? n)%nat && (n <=? 90)%nat then ascii_of_nat (n + 32) else c.

(** Case folding as [bytes.EqualFold] sees it against an ASCII name: ASCII
    letters fold to lower case, and the only two non-ASCII runes whose
    simple fold meets ASCII, U+017F (long s) and U+212A (Kelvin sign),
    fold to [s] and [k]. *)
Fixpoint fold (s : string) : string :=
  match s with
  | String "197" (String "191" s') => String "s" (fold s')
  | String "226" (String "132" (String "170" s')) => String "k" (fold s')
  | String c s' => String (lower c) (fold s')
  | EmptyString => EmptyString
  end.

Definition EqualFold (a b : string) : bool := String.eqb (fold a) (fold b).

End Strings.

(* ===================================================================== *)
(** * Results and errors                                                  *)
(* ===================================================================== *)

(** A Go [error] is modelled by its message ([Error()]); the sentinel
    [io.EOF], which the program compares by identity, is kept apart where it
    matters (see [ReadStatus]).  A Go [(T, error)] return is a [Result]. *)
Definition error := string.

Inductive Result (A : Type) : Type :=
| Ok (a : A)
| Err (e : error).
Arguments Ok {A} a.
Arguments Err {A} e.

(* ===================================================================== *)
(** * [encoding/json]: decoding into the two response structs             *)
(* ===================================================================== *)

Module Json.

(** A JSON text after scanning: the syntax tree [Decode] walks. *)
#[warnings="-register-all"]
Inductive Value : Type :=
| Null
| Bool (b : bool)
| Number (lit : string)
| Str (s : string)
| Array (elems : list Value)
| Object (fields : list (string * Value)).

Definition kind (v : Value) : string :=
  match v with
  | Null => "null"
  | Bool _ => "bool"
  | Number _ => "number"
  | Str _ => "string"
  | Array _ => "array"
  | Object _ => "object"
  end.

(** The message of an [UnmarshalTypeError], without the path of the struct
    field. *)
Definition typeError (v : Value) (target : string) : error :=
  "json: cannot unmarshal " +:+ kind v +:+ " into Go value of type " +:+ target.

(** Decoding into a Go [string]: a JSON string is stored, [null] leaves
    the destination as it is, anything else is a type error. *)
Definition intoString (v : Value) (cur : string) : Result string :=
  match v with
  | Str s => Ok s
  | Null => Ok cur
  | _ => Err (typeError v "string")
  end.

(** Decoding a JSON object into a struct: the members are visited in
    order and each is handed to [setField], which stores it when its key
    names a field (so a repeated key is stored again, over the first) and
    ignores it otherwise.  The first error is the one returned. *)
Fixpoint intoStruct {T : Type} (setField : string -> Value -> T -> Result T)
    (fields : list (string * Value)) (cur : T) : Result T :=
  match fields with
  | [] => Ok cur
  | (k, v) :: rest =>
      match setField k v cur with
      | Ok cur' => intoStruct setField rest cur'
      | Err e => Err e
      end
  end.

(** Decoding the elements of a JSON array, left to right. *)
Fixpoint intoSlice {T : Type} (elem : Value -> Result T) (l : list Value)
  : Result (list T) :=
  match l with
  | [] => Ok []
  | v :: rest =>
      match elem v with
      | Err e => Err e
      | Ok x =>
          match intoSlice elem rest with
          | Err e => Err e
          | Ok xs => Ok (x :: xs)
          end
      end
  end.

(** Does a member key name the struct field tagged [name]?  Exact match,
    or match under case folding. *)
Definition matches (name key : string) : bool :=
  String.eqb key name || Strings.EqualFold key name.

(** The first member whose key names the field, if any. *)
Fixpoint member (name : string) (fields : list (string * Value))
  : option Value :=
  match fields with
  | [] => None
  | (k, v) :: rest => if matches name k then Some v else member name rest
  end.

End Json.

(** The response structs of [main.go].  Go leaves the two inner structs of
    [openAIChatResponse] anonymous; they are named here. *)
Record openAITranscriptionResponse : Type := { Text : string }.

Record chatMessage : Type := { Content : string }.
Record chatChoice : Type := { Message : chatMessage }.
Record openAIChatResponse : Type := { Choices : list chatChoice }.

Definition unmarshalTranscription (v : Json.Value)
    (cur : openAITranscriptionResponse) : Result openAITranscriptionResponse :=
  match v with
  | Json.Null => Ok cur
  | Json.Object fields =>
      Json.intoStruct
        (fun k x t =>
           if Json.matches "text" k then
             match Json.intoString x (Text t) with
             | Ok s => Ok {| Text := s |}
             | Err e => Err e
             end
           else Ok t)
        fields cur
  | _ => Err (Json.typeError v "main.openAITranscriptionResponse")
  end.

Definition unmarshalMessage (v : Json.Value) (cur : chatMessage)
  : Result chatMessage :=
  match v with
  | Json.Null => Ok cur
  | Json.Object fields =>
      Json.intoStruct
        (fun k x m =>
           if Json.matches "content" k then
             match Json.intoString x (Content m) with
             | Ok s => Ok {| Content := s |}
             | Err e => Err e
             end
           else Ok m)
        fields cur
  | _ => Err (Json.typeError v "struct { Content string }")
  end.

Definition unmarshalChoice (v : Json.Value) (cur : chatChoice)
  : Result chatChoice :=
  match v with
  | Json.Null => Ok cur
  | Json.Object fields =>
      Json.intoStruct
        (fun k x c =>
           if Json.matches "message" k then
             match unmarshalMessage x (Message c) with
             | Ok m => Ok {| Message := m |}
             | Err e => Err e
             end
           else Ok c)
        fields cur
  | _ => Err (Json.typeError v "struct { Message struct { Content string } }")
  end.

(** Decoding into the slice field: an array replaces the slice, its elements
    decoded into fresh zero values; [null] makes the slice nil. *)
Definition unmarshalChoices (v : Json.Value) : Result (list chatChoice) :=
  match v with
  | Json.Null => Ok []
  | Json.Array elems =>
      Json.intoSlice
        (fun x => unmarshalChoice x {| Message := {| Content := "" |} |}) elems
  | _ => Err (Json.typeError v "[]struct { Message struct { Content string } }")
  end.

Definition unmarshalChat (v : Json.Value) (cur : openAIChatResponse)
  : Result openAIChatResponse :=
  match v with
  | Json.Null => Ok cur
  | Json.Object fields =>
      Json.intoStruct
        (fun k x r =>
           if Json.matches "choices" k then
             match unmarshalChoices x with
             | Ok cs => Ok {| Choices := cs |}
             | Err e => Err e
             end
           else Ok r)
        fields cur
  | _ => Err (Json.typeError v "main.openAIChatResponse")
  end.

(* ===================================================================== *)
(** * [go-audio/wav]: the encoder, and a reader of what it writes         *)
(* ===================================================================== *)

Module Wav.
Local Open Scope Z_scope.

(** File contents are bytes, each a [Z] in [0, 256). *)

(** [binary.Write(w, binary.LittleEndian, v)] for an integer type of [n]
    bytes: the [n] low bytes of [v], least significant first (so the Go
    conversions [uint16(v)], [uint32(v)], [int16(v)] that precede it are
    the reduction modulo [2^(8n)] done here). *)
Fixpoint le (n : nat) (v : Z) : list Z :=
  match n with
  | O => []
  | S n' => v mod 256 :: le n' (v / 256)
  end.

Definition chars (s : string) : list Z :=
  map (fun c => Z.of_nat (nat_of_ascii c)) (list_ascii_of_string s).

(** Go's [int] is 64 bits wide: products wrap. *)
Definition int64 (z : Z) : Z := (z + 2 ^ 63) mod 2 ^ 64 - 2 ^ 63.

(** [audio.IntBuffer.NumFrames]: whole frames in the data. *)
Definition NumFrames (numChannels : Z) (data : list Z) : Z :=
  Z.quot (Z.of_nat (length data)) (if numChannels =? 0 then 1 else numChannels).

(** Modelled from the spec: the encoder of [go-audio/wav], which is not
    among the repository's sources.  Section 4.1: it "writes the
    canonical RIFF/WAVE header followed by raw little-endian 16-bit sample
    data".  The header fields have the widths of the canonical format
    (16-bit channel count, 32-bit sample rate and sizes), the samples are
    written frame by frame, [numChannels] samples to a frame, and the two
    size fields are written as the placeholder 42 first and patched by
    [Close]. *)
Definition header (sampleRate bitDepth numChans audioFormat : Z) : list Z :=
  let blockAlign := Z.quot (int64 (numChans * bitDepth)) 8 in
  chars "RIFF" ++ le 4 42 ++ chars "WAVE" ++
  chars "fmt " ++ le 4 16 ++ le 2 audioFormat ++ le 2 numChans ++
  le 4 sampleRate ++ le 4 (int64 (sampleRate * blockAlign)) ++
  le 2 blockAlign ++ le 2 bitDepth.

(** The frames of [addBuffer] at bit depth 16. *)
Definition pcm (numChannels : Z) (data : list Z) : list Z :=
  if numChannels <=? 0 then []
  else
    flat_map (le 2)
      (firstn (Z.to_nat (NumFrames numChannels data * numChannels)) data).

(** Number of frames [addBuffer] counts. *)
Definition frameCount (numChannels : Z) (data : list Z) : Z :=
  Z.max 0 (NumFrames numChannels data).

(** Position of the data chunk's size field: the bytes written before it. *)
Definition pcmChunkSizePos : nat := 40.

(** What [Encoder.Write] has put in the file: header, data chunk tag,
    placeholder size, frames. *)
Definition written (sampleRate bitDepth numChans audioFormat : Z)
    (data : list Z) : list Z :=
  header sampleRate bitDepth numChans audioFormat ++
  chars "data" ++ le 4 42 ++ pcm numChans data.

(** Overwrite at a file offset ([Seek] then write). *)
Definition patch (pos : nat) (bs : list Z) (f : list Z) : list Z :=
  firstn pos f ++ bs ++ skipn (pos + length bs) f.

(** [Encoder.Close]: go back and write the total size at offset 4 and the
    data chunk size at [pcmChunkSizePos]. *)
Definition closed (bitDepth numChans frames : Z) (f : list Z) : list Z :=
  let f1 := patch 4 (le 4 (Z.of_nat (length f) - 8)) f in
  patch pcmChunkSizePos
    (le 4 (int64 (int64 (Z.quot bitDepth 8 * numChans) * frames))) f1.

(** Modelled from the spec: the file the encoder of [go-audio/wav] leaves
    after [NewEncoder], [Write] and [Close] (the encoder is not among the
    repository's sources; section 4.1 describes what it writes). *)
Definition encode (sampleRate bitDepth numChans audioFormat : Z)
    (data : list Z) : list Z :=
  closed bitDepth numChans (frameCount numChans data)
    (written sampleRate bitDepth numChans audioFormat data).


(** What reading a WAV file back yields. *)
Record Clip : Type := {
  NumChannels : Z;
  SampleRate : Z;
  Samples : list Z
}.

(** An unsigned little-endian integer. *)
Definition uint (bs : list Z) : Z :=
  fold_right (fun b acc => b + 256 * acc) 0 bs.

(** Two's complement reading of 16 bits. *)
Definition int16 (x : Z) : Z := if x <? 32768 then x else x - 65536.

Fixpoint samples16 (bs : list Z) : list Z :=
  match bs with
  | lo :: hi :: rest => int16 (lo + 256 * hi) :: samples16 rest
  | _ => []
  end.

Definition bytes_eqb (a b : list Z) : bool :=
  bool_decide (a = b).

(** Take a field of [n] bytes off the front. *)
Definition field (n : nat) (f : list Z) : list Z * list Z :=
  (firstn n f, skipn n f).

(** Modelled from the spec: the reader of section 8's round-trip property
    ("reading back the resulting WAV file"); the program itself never
    reads a WAV file.  It accepts the canonical 44-byte header of 16-bit
    PCM whose size fields agree with the file, and returns the channel
    count, the sample rate and the samples.  The two derived fields (byte
    rate, block alignment) are read over. *)
Definition decode (f : list Z) : option Clip :=
  let '(riff, f) := field 4 f in
  let '(size, f) := field 4 f in
  let '(wave, f) := field 4 f in
  let '(fmt, f) := field 4 f in
  let '(fmtSize, f) := field 4 f in
  let '(audioFormat, f) := field 2 f in
  let '(numChans, f) := field 2 f in
  let '(sampleRate, f) := field 4 f in
  let '(byteRate, f) := field 4 f in
  let '(blockAlign, f) := field 2 f in
  let '(bits, f) := field 2 f in
  let '(data, f) := field 4 f in
  let '(dataSize, f) := field 4 f in
  if bytes_eqb riff (chars "RIFF") && bytes_eqb wave (chars "WAVE") &&
     bytes_eqb fmt (chars "fmt ") && bytes_eqb data (chars "data") &&
     (uint fmtSize =? 16) && (uint audioFormat =? 1) && (uint bits =? 16) &&
     (uint size =? 36 + Z.of_nat (length f)) &&
     (uint dataSize =? Z.of_nat (length f))
  then Some {| NumChannels := uint numChans;
               SampleRate := uint sampleRate;
               Samples := samples16 f |}
  else None.

End Wav.

(* ===================================================================== *)
(** * The process and the world around it                                 *)
(* ===================================================================== *)

(** [path/filepath.Base] on Unix: the last element of a path, trailing
    slashes removed first. *)
Definition isSlash (c : ascii) : bool := Ascii.eqb c "/".

Fixpoint dropSlashes (l : list ascii) : list ascii :=
  match l with
  | c :: l' => if isSlash c then dropSlashes l' else l
  | [] => []
  end.

Fixpoint untilSlash (l : list ascii) : list ascii :=
  match l with
  | c :: l' => if isSlash c then [] else c :: untilSlash l'
  | [] => []
  end.

Definition filepath_Base (path : string) : string :=
  if String.eqb path "" then "."
  else
    match untilSlash (dropSlashes (rev (list_ascii_of_string path))) with
    | [] => "/"
    | l => string_of_list_ascii (rev l)
    end.

(** An HTTP request as the program builds it.  The two bodies are kept in
    their structured form: the parts handed to the multipart writer, and the
    struct handed to [json.Marshal]. *)
Record openAIChatRequest : Type := {
  Model : string;
  Messages : list (gmap string string);
  Temperature : Z   (* the float64 literal 0.0 is the only value it takes *)
}.

Inductive Part : Type :=
| FormFile (fieldname filename : string) (content : list Z)
| FormField (fieldname value : string).

Inductive Payload : Type :=
| Multipart (parts : list Part)
| Marshal (payload : openAIChatRequest).

Record Request : Type := {
  Method : string;
  URL : string;
  Header : gmap string string;
  ReqBody : Payload
}.

Record Response : Type := {
  StatusCode : Z;
  Body : string
}.

(** The outcome of one [stream.Read]: the samples the device put into the
    chunk buffer, and the error returned ([nil], [io.EOF], or another). *)
Inductive ReadStatus : Type :=
| ReadOk
| ReadEOF
| ReadFailed (e : error).

Record ReadResult : Type := {
  delivered : list Z;
  status : ReadStatus
}.

(** Calls that leave the process, in the order made. *)
Inductive Event : Type :=
| EvSetJackErrorHandler
| EvSetAlsaErrorHandler
| EvInitialize
| EvTerminate
| EvOpenDefaultStream (numIn numOut sampleRate framesPerBuffer : Z)
| EvStreamStart
| EvStreamRead
| EvStreamStop
| EvStreamClose
| EvSpinnerStart
| EvSpinnerSuffix (suffix : string)
| EvSpinnerStop
| EvCreate (name : string)
| EvOpen (name : string)
| EvRemove (name : string)
| EvHTTP (req : Request).

(** What the outside world does in one execution. *)
Record World : Type := {
  w_environ : gmap string string;         (* the environment at start *)
  w_files : gmap string (list Z);         (* the working directory at start *)
  w_dotenv : option (list (string * string));
                                          (* the [.env] file, when it loads *)
  w_Initialize : option error;            (* portaudio.Initialize *)
  w_OpenDefaultStream : option error;
  w_Start : option error;
  w_Read : nat -> ReadResult;             (* the n-th stream.Read *)
  w_Stop : option error;
  w_enter : option nat;
    (* the stdin watcher's store lands before the n-th test of the flag *)
  w_signal : option nat;
    (* the signal watcher's store lands before the n-th test of the flag *)
  w_Create : option error;                (* os.Create *)
  w_Write : option (nat * error);
    (* Encoder.Write failing after so many bytes reached the file *)
  w_Close : option error;                 (* Encoder.Close *)
  w_Open : option error;                  (* os.Open *)
  w_boundary : string;                    (* the multipart boundary drawn *)
  w_Do : Request -> Result Response       (* http.Client.Do *)
}.

(** The state of the process. *)
Record State : Type := {
  environ : gmap string string;
  files : gmap string (list Z);
  stdout : list string;      (* what fmt.Printf wrote, oldest first *)
  trace : list Event;        (* oldest first *)
  stopRecording : Z          (* the int32 of run, accessed atomically *)
}.

Definition set_environ (f : gmap string string -> gmap string string)
    (st : State) : State :=
  {| environ := f (environ st); files := files st; stdout := stdout st;
     trace := trace st; stopRecording := stopRecording st |}.

Definition set_files (f : gmap string (list Z) -> gmap string (list Z))
    (st : State) : State :=
  {| environ := environ st; files := f (files st); stdout := stdout st;
     trace := trace st; stopRecording := stopRecording st |}.

Definition set_stdout (f : list string -> list string) (st : State) : State :=
  {| environ := environ st; files := files st; stdout := f (stdout st);
     trace := trace st; stopRecording := stopRecording st |}.

Definition set_trace (f : list Event -> list Event) (st : State) : State :=
  {| environ := environ st; files := files st; stdout := stdout st;
     trace := f (trace st); stopRecording := stopRecording st |}.

Definition set_stopRecording (v : Z) (st : State) : State :=
  {| environ := environ st; files := files st; stdout := stdout st;
     trace := trace st; stopRecording := v |}.

(** Computations of the process: a result or an error, or nothing yet when
    the fuel given to the recording loop ran out with the loop still
    polling. *)
Definition M (A : Type) : Type := State -> option (Result A) * State.

Definition ret {A : Type} (a : A) : M A := fun st => (Some (Ok a), st).

Definition throw {A : Type} (e : error) : M A := fun st => (Some (Err e), st).

Definition running {A : Type} : M A := fun st => (None, st).

Definition bind {A B : Type} (m : M A) (k : A -> M B) : M B :=
  fun st =>
    match m st with
    | (Some (Ok a), st') => k a st'
    | (Some (Err e), st') => (Some (Err e), st')
    | (None, st') => (None, st')
    end.

(** [if err != nil { ... }]: what to do with the error of a call. *)
Definition catch {A : Type} (m : M A) (h : error -> M A) : M A :=
  fun st =>
    match m st with
    | (Some (Err e), st') => h e st'
    | r => r
    end.

(** [defer d] in front of [body]: [d] runs when the function returns, with
    a value or with an error, and its own result is dropped. *)
Definition defer {A : Type} (d : M unit) (body : M A) : M A :=
  fun st =>
    match body st with
    | (None, st') => (None, st')
    | (r, st') => (r, snd (d st'))
    end.

Declare Scope go_scope.
Delimit Scope go_scope with go.
Notation "x <- m ;; k" := (bind m (fun x => k))
  (at level 20, m at level 99, k at level 200, only parsing) : go_scope.
Notation "m ;; k" := (bind m (fun _ => k))
  (at level 100, k at level 200, right associativity, only parsing) : go_scope.
Local Open Scope go_scope.

(** [return fmt.Errorf("<prefix>: %w", err)] on error. *)
Definition wrap {A : Type} (prefix : string) (m : M A) : M A :=
  catch m (fun err => throw (prefix +:+ err)).

Definition emit (e : Event) : M unit :=
  fun st => (Some (Ok tt), set_trace (fun t => t ++ [e]) st).

(** A library call that returns only an error. *)
Definition call (e : Event) (r : option error) : M unit :=
  emit e ;;
  match r with
  | None => ret tt
  | Some err => throw err
  end.

Definition os_Setenv (k v : string) : M unit :=
  fun st => (Some (Ok tt), set_environ (insert k v) st).

Definition os_Getenv (k : string) : M string :=
  fun st => (Some (Ok (default "" (environ st !! k))), st).

Definition fmt_Printf (s : string) : M unit :=
  fun st => (Some (Ok tt), set_stdout (fun o => o ++ [s]) st).

Definition atomic_StoreInt32 (v : Z) : M unit :=
  fun st => (Some (Ok tt), set_stopRecording v st).

(** [var stopRecording int32]: the variable comes to be, zero. *)
Definition var_stopRecording : M unit :=
  fun st => (Some (Ok tt), set_stopRecording 0 st).

Definition atomic_LoadInt32 : M Z :=
  fun st => (Some (Ok (stopRecording st)), st).

Definition os_Remove (name : string) : M unit :=
  emit (EvRemove name) ;;
  fun st => (Some (Ok tt), set_files (delete name) st).

Definition writeFile (name : string) (content : list Z) : M unit :=
  fun st => (Some (Ok tt), set_files (insert name content) st).

Definition readFile (name : string) : M (option (list Z)) :=
  fun st => (Some (Ok (files st !! name)), st).

(** A device read writes the delivered samples over the front of the
    buffer; a slice does not change length under the writes of its holder. *)
Definition fillBuffer (buf got : list Z) : list Z :=
  firstn (length buf) (got ++ skipn (length got) buf).

(** [int(v)] of an [int16]: the same number. *)
Definition int (v : Z) : Z := v.

(** The loop of [int16ToIntSlice]: [out[i] = int(v)] for each [i, v]. *)
Fixpoint rangeLoop (i : nat) (in_ out : list Z) : list Z :=
  match in_ with
  | [] => out
  | v :: rest => rangeLoop (S i) rest (<[i := int v]> out)
  end.

Definition int16ToIntSlice (in_ : list Z) : list Z :=
  rangeLoop 0 in_ (replicate (length in_) 0%Z).

Definition channels : Z := 1.
Definition sampleRate : Z := 44100.
Definition framesPerChunk : Z := 1024.
Definition tempFileName : string := "temp.wav".
Definition transcriptionsURL : string :=
  "https://api.openai.com/v1/audio/transcriptions".
Definition completionsURL : string :=
  "https://api.openai.com/v1/chat/completions".
Definition systemPrompt : string :=
  "You convert natural language instructions into a single valid Bash command. Print the command in plain text without any formatting".

Definition keyMissing : error :=
  "OpenAI API key not found. Please set OPENAI_API_KEY in your environment or .env file".

Definition non200 (resp : Response) : error :=
  "non-200 status code: " +:+ Strings.itoa (StatusCode resp) +:+ " - " +:+
  Body resp.

Section Program.

(** The scanner of [encoding/json]: the first JSON value of a body, or the
    syntax error. *)
Variable parseJSON : string -> Result Json.Value.

Variable w : World.

(** [godotenv.Load]: variables of [.env] that the environment lacks are
    set; a file that does not load changes nothing. *)
Definition loadEnv (env : gmap string string) : gmap string string :=
  match w_dotenv w with
  | None => env
  | Some kvs =>
      foldl (fun env kv =>
               match env !! kv.1 with
               | Some _ => env
               | None => <[kv.1 := kv.2]> env
               end) env kvs
  end.

Definition godotenv_Load : M unit :=
  fun st => (Some (Ok tt), set_environ loadEnv st).

Definition init : M unit :=
  os_Setenv "JACK_NO_START_SERVER" "1" ;;
  emit EvSetJackErrorHandler ;;
  emit EvSetAlsaErrorHandler.

(** [writeWavFile] *)
Definition os_Create (name : string) : M unit :=
  emit (EvCreate name) ;;
  match w_Create w with
  | Some err => throw err
  | None => writeFile name []
  end.

Definition enc_Write (name : string) (sr bitDepth numChans fmt : Z)
    (data : list Z) : M unit :=
  let bytes := Wav.written sr bitDepth numChans fmt data in
  match w_Write w with
  | Some (n, err) => writeFile name (firstn n bytes) ;; throw err
  | None => writeFile name bytes
  end.

Definition enc_Close (name : string) (bitDepth numChans : Z)
    (data : list Z) : M unit :=
  match w_Close w with
  | Some err => throw err
  | None =>
      f <- readFile name ;;
      writeFile name
        (Wav.closed bitDepth numChans (Wav.frameCount numChans data)
           (default [] f))
  end.

Definition writeWavFile (filename : string) (samples : list Z)
    (numChans sampleRate : Z) : M unit :=
  os_Create filename ;;
  defer (ret tt) (* outFile.Close() *)
    (let data := int16ToIntSlice samples in
     enc_Write filename sampleRate 16 numChans 1 data ;;
     enc_Close filename 16 numChans data ;;
     ret tt).

(** The two clients *)
Definition os_Open (name : string) : M (list Z) :=
  emit (EvOpen name) ;;
  match w_Open w with
  | Some err => throw err
  | None =>
      f <- readFile name ;;
      match f with
      | Some content => ret content
      | None => throw ("open " +:+ name +:+ ": no such file or directory")
      end
  end.

Definition client_Do (req : Request) : M Response :=
  emit (EvHTTP req) ;;
  match w_Do w req with
  | Ok resp => ret resp
  | Err err => throw err
  end.

Definition transcribeAudio (apiKey filePath : string) : M string :=
  file <- os_Open filePath ;;
  let b := Multipart [FormFile "file" (filepath_Base filePath) file;
                      FormField "model" "whisper-1"] in
  let req :=
    {| Method := "POST"; URL := transcriptionsURL;
       Header :=
         <["Content-Type" :=
             "multipart/form-data; boundary=" +:+ w_boundary w]>
           (<["Authorization" := "Bearer " +:+ apiKey]> ∅);
       ReqBody := b |} in
  resp <- client_Do req ;;
  if negb (StatusCode resp =? 200)%Z then throw (non200 resp)
  else
    match parseJSON (Body resp) with
    | Err err => throw err
    | Ok v =>
        match unmarshalTranscription v {| Text := "" |} with
        | Err err => throw err
        | Ok transcription => ret (Text transcription)
        end
    end.

Definition generateBashCommand (apiKey userText : string) : M string :=
  let payload :=
    {| Model := "gpt-4";
       Messages :=
         [ <["role" := "system"]> (<["content" := systemPrompt]> ∅);
           <["role" := "user"]> (<["content" := userText]> ∅) ];
       Temperature := 0 |} in
  let req :=
    {| Method := "POST"; URL := completionsURL;
       Header :=
         <["Content-Type" := "application/json"]>
           (<["Authorization" := "Bearer " +:+ apiKey]> ∅);
       ReqBody := Marshal payload |} in
  resp <- client_Do req ;;
  if negb (StatusCode resp =? 200)%Z then throw (non200 resp)
  else
    match parseJSON (Body resp) with
    | Err err => throw err
    | Ok v =>
        match unmarshalChat v {| Choices := [] |} with
        | Err err => throw err
        | Ok chatResp =>
            match Choices chatResp with
            | [] => throw "no choices returned from chat completion"
            | c :: _ => ret (Content (Message c))
            end
        end
    end.

(** The two goroutines of [run].  Each blocks (on a line of standard input,
    on the signal channel) and then stores 1 in the flag.  The flag is
    only read by the test at the top of the loop, so all that matters of
    the interleaving is before which test each store lands: [w_enter] and
    [w_signal] say so, and [watchers i] performs the stores that land
    before the [i]-th test. *)
Definition watcher (at_ : option nat) (i : nat) : M unit :=
  if bool_decide (at_ = Some i) then atomic_StoreInt32 1 else ret tt.

Definition watchers (i : nat) : M unit :=
  watcher (w_enter w) i ;; watcher (w_signal w) i.

Definition stream_Read (i : nat) (in_ : list Z) : M (list Z * ReadStatus) :=
  emit EvStreamRead ;;
  ret (fillBuffer in_ (delivered (w_Read w i)), status (w_Read w i)).

(** The recording loop, [i] iterations done:
    [for atomic.LoadInt32(&stopRecording) == 0 { ... }]. *)
Fixpoint recordLoop (fuel i : nat) (in_ recordedData : list Z)
  : M (list Z) :=
  match fuel with
  | O => running
  | S fuel' =>
      watchers i ;;
      flag <- atomic_LoadInt32 ;;
      if (flag =? 0)%Z then
        r <- stream_Read i in_ ;;
        match r.2 with
        | ReadFailed err =>
            emit EvSpinnerStop ;;
            throw ("error reading from audio stream: " +:+ err)
        | _ => recordLoop fuel' (S i) r.1 (recordedData ++ r.1)
        end
      else ret recordedData
  end.

Definition run (fuel : nat) : M unit :=
  godotenv_Load ;;
  apiKey <- os_Getenv "OPENAI_API_KEY" ;;
  if String.eqb apiKey "" then throw keyMissing
  else
  wrap "failed to initialize portaudio: " (call EvInitialize (w_Initialize w)) ;;
  defer (emit EvTerminate) (
  let in_ := replicate (Z.to_nat framesPerChunk) 0%Z in
  wrap "failed to open audio stream: "
    (call (EvOpenDefaultStream channels 0 sampleRate framesPerChunk)
       (w_OpenDefaultStream w)) ;;
  defer (emit EvStreamClose) (
  wrap "failed to start audio stream: " (call EvStreamStart (w_Start w)) ;;
  emit (EvSpinnerSuffix " Recording") ;;
  emit EvSpinnerStart ;;
  defer (emit EvSpinnerStop) (
  var_stopRecording ;;
  recordedData <- recordLoop fuel 0 in_ [] ;;
  wrap "failed to stop audio stream: " (call EvStreamStop (w_Stop w)) ;;
  wrap "failed to write wav file: "
    (writeWavFile tempFileName recordedData channels sampleRate) ;;
  defer (os_Remove tempFileName) (
  emit (EvSpinnerSuffix " Transcribing audio...") ;;
  transcribedText <-
    catch (transcribeAudio apiKey tempFileName)
      (fun err => emit EvSpinnerStop ;;
                  throw ("error transcribing audio: " +:+ err)) ;;
  emit (EvSpinnerSuffix " Generating command...") ;;
  generatedCommand <-
    catch (generateBashCommand apiKey transcribedText)
      (fun err => emit EvSpinnerStop ;;
                  throw ("error generating command: " +:+ err)) ;;
  emit EvSpinnerStop ;;
  fmt_Printf (String "010" (Strings.TrimSpace generatedCommand) +:+ String "010" "")
  )))).

Definition start : State :=
  {| environ := w_environ w; files := w_files w; stdout := [];
     trace := []; stopRecording := 0 |}.

(** The process from start to exit: the exit status ([None] while the
    recording loop is still polling at the end of the fuel) and the final
    state. *)
Definition main (fuel : nat) : option Z * State :=
  match (init ;; run fuel) start with
  | (None, st) => (None, st)
  | (Some (Ok _), st) => (Some 0%Z, st)
  | (Some (Err err), st) =>
      (Some 1%Z,
       set_stdout
         (fun o => o ++ ["An error occurred: " +:+ err +:+ String "010" ""])
         st)
  end.

End Program.

(* ===================================================================== *)
(** * Notions the statements use                                          *)
(* ===================================================================== *)

(** The HTTP requests of a trace, in order. *)
Fixpoint http (t : list Event) : list Request :=
  match t with
  | [] => []
  | EvHTTP req :: t' => req :: http t'
  | _ :: t' => http t'
  end.

(** Calls into the audio library that initialise it or touch a device. *)
Definition isAudio (e : Event) : bool :=
  match e with
  | EvInitialize | EvTerminate | EvOpenDefaultStream _ _ _ _ | EvStreamStart
  | EvStreamRead | EvStreamStop | EvStreamClose => true
  | _ => false
  end.

(** What the recording loop adds to the trace. *)
Definition loopEvent (e : Event) : Prop :=
  e = EvStreamRead \/ e = EvSpinnerStop.

Definition failed (s : ReadStatus) : bool :=
  match s with
  | ReadFailed _ => true
  | _ => false
  end.

Definition add_trace (evs : list Event) (st : State) : State :=
  set_trace (fun t => t ++ evs) st.

Section Derived.

Variable parseJSON : string -> Result Json.Value.
Variable w : World.

(** Does a watcher's store land before the [i]-th test of the flag? *)
Definition fires (i : nat) : bool :=
  bool_decide (w_enter w = Some i) || bool_decide (w_signal w = Some i).

(** The state after the stores that land before the [i]-th test. *)
Definition afterWatchers (i : nat) (st : State) : State :=
  if fires i then set_stopRecording 1 st else st.

(** The request [generateBashCommand] builds. *)
Definition chatRequest (apiKey userText : string) : Request :=
  {| Method := "POST"; URL := completionsURL;
     Header :=
       <["Content-Type" := "application/json"]>
         (<["Authorization" := "Bearer " +:+ apiKey]> ∅);
     ReqBody :=
       Marshal
         {| Model := "gpt-4";
            Messages :=
              [ <["role" := "system"]> (<["content" := systemPrompt]> ∅);
                <["role" := "user"]> (<["content" := userText]> ∅) ];
            Temperature := 0 |} |}.

(** The request [transcribeAudio] builds for a file it could read. *)
Definition transcriptionRequest (apiKey filePath : string)
    (file : list Z) : Request :=
  {| Method := "POST"; URL := transcriptionsURL;
     Header :=
       <["Content-Type" :=
           "multipart/form-data; boundary=" +:+ w_boundary w]>
         (<["Authorization" := "Bearer " +:+ apiKey]> ∅);
     ReqBody :=
       Multipart [FormFile "file" (filepath_Base filePath) file;
                  FormField "model" "whisper-1"] |}.

(** What [generateBashCommand] makes of the reply to its request. *)
Definition chatResult (reply : Result Response) : Result string :=
  match reply with
  | Err err => Err err
  | Ok resp =>
      if negb (StatusCode resp =? 200)%Z then Err (non200 resp)
      else
        match parseJSON (Body resp) with
        | Err err => Err err
        | Ok v =>
            match unmarshalChat v {| Choices := [] |} with
            | Err err => Err err
            | Ok chatResp =>
                match Choices chatResp with
                | [] => Err "no choices returned from chat completion"
                | c :: _ => Ok (Content (Message c))
                end
            end
        end
  end.

(** What [transcribeAudio] makes of the reply to its request. *)
Definition transcriptionResult (reply : Result Response) : Result string :=
  match reply with
  | Err err => Err err
  | Ok resp =>
      if negb (StatusCode resp =? 200)%Z then Err (non200 resp)
      else
        match parseJSON (Body resp) with
        | Err err => Err err
        | Ok v =>
            match unmarshalTranscription v {| Text := "" |} with
            | Err err => Err err
            | Ok transcription => Ok (Text transcription)
            end
        end
  end.

End Derived.

(* ===================================================================== *)
(** * The recording phase as three tasks                                  *)
(* ===================================================================== *)

(** The recording loop and the two goroutines of [run], one atomic action
    at a time, under any interleaving.  [recordLoop] above is the loop under
    the interleavings that [w_enter] and [w_signal] summarise; here every
    schedule is a value, and the flag is followed through each of them. *)
Module Tasks.

(** A watcher blocks (in [ReadString], on [<-c]), wakes when its event
    comes, stores 1 in the flag and returns. *)
Inductive Watcher : Type := Blocked | Woken | Returned.

(** The loop is at its test, at its read, or has left: past the loop, or
    out of [run] with the read error. *)
Inductive Loop : Type :=
| Testing
| Reading
| Stopped
| Failed (err : error).

Record Sys : Type := {
  flag : Z;                  (* stopRecording *)
  enter : Watcher;           (* the goroutine reading standard input *)
  signal : Watcher;          (* the goroutine receiving from c *)
  loop : Loop;
  chunk : list Z;            (* in *)
  recorded : list Z;         (* recordedData *)
  reads : nat                (* stream.Read calls made *)
}.

Inductive Action : Type :=
| EnterWakes
| EnterStores
| SignalWakes
| SignalStores
| LoopSteps.

Definition init : Sys :=
  {| flag := 0; enter := Blocked; signal := Blocked; loop := Testing;
     chunk := replicate (Z.to_nat framesPerChunk) 0%Z; recorded := [];
     reads := 0 |}.

Definition exec (w : World) (a : Action) (s : Sys) : option Sys :=
  match a with
  | EnterWakes =>
      match enter s with
      | Blocked =>
          Some {| flag := flag s; enter := Woken; signal := signal s;
                  loop := loop s; chunk := chunk s;
                  recorded := recorded s; reads := reads s |}
      | _ => None
      end
  | EnterStores =>
      match enter s with
      | Woken =>
          Some {| flag := 1; enter := Returned; signal := signal s;
                  loop := loop s; chunk := chunk s;
                  recorded := recorded s; reads := reads s |}
      | _ => None
      end
  | SignalWakes =>
      match signal s with
      | Blocked =>
          Some {| flag := flag s; enter := enter s; signal := Woken;
                  loop := loop s; chunk := chunk s;
                  recorded := recorded s; reads := reads s |}
      | _ => None
      end
  | SignalStores =>
      match signal s with
      | Woken =>
          Some {| flag := 1; enter := enter s; signal := Returned;
                  loop := loop s; chunk := chunk s;
                  recorded := recorded s; reads := reads s |}
      | _ => None
      end
  | LoopSteps =>
      match loop s with
      | Testing =>
          Some {| flag := flag s; enter := enter s; signal := signal s;
                  loop := if (flag s =? 0)%Z then Reading else Stopped;
                  chunk := chunk s; recorded := recorded s;
                  reads := reads s |}
      | Reading =>
          let r := w_Read w (reads s) in
          let chunk' := fillBuffer (chunk s) (delivered r) in
          Some
            match status r with
            | ReadFailed err =>
                {| flag := flag s; enter := enter s; signal := signal s;
                   loop := Failed err; chunk := chunk';
                   recorded := recorded s; reads := S (reads s) |}
            | _ =>
                {| flag := flag s; enter := enter s; signal := signal s;
                   loop := Testing; chunk := chunk';
                   recorded := recorded s ++ chunk';
                   reads := S (reads s) |}
            end
      | Stopped | Failed _ => None
      end
  end.

(** A schedule, action by action; [None] when an action is not enabled. *)
Fixpoint execs (w : World) (sched : list Action) (s : Sys) : option Sys :=
  match sched with
  | [] => Some s
  | a :: rest =>
      match exec w a s with
      | Some s' => execs w rest s'
      | None => None
      end
  end.

Definition reachable (w : World) (s : Sys) : Prop :=
  exists sched, execs w sched init = Some s.

End Tasks.

(** ** The loop of [run] beside the task system *)

(** Where a watcher stands at the [i]-th test, its store landing as the
    world says. *)
Definition standing (at_ : option nat) (i : nat) : Tasks.Watcher :=
  match at_ with
  | Some n => if (n <? i)%nat then Tasks.Returned else Tasks.Blocked
  | None => Tasks.Blocked
  end.

(** The actions of a watcher between the tests [i - 1] and [i]. *)
Definition wakes (at_ : option nat) (i : nat) (wake store : Tasks.Action)
  : list Tasks.Action :=
  if bool_decide (at_ = Some i) then [wake; store] else [].

(** The loop's state in [run] and in the task system, at the [i]-th test. *)
Definition atTest (w : World) (i : nat) (in_ rec : list Z) (st : State)
    (s : Tasks.Sys) : Prop :=
  Tasks.flag s = stopRecording st /\
  Tasks.enter s = standing (w_enter w) i /\
  Tasks.signal s = standing (w_signal w) i /\
  Tasks.loop s = Tasks.Testing /\
  Tasks.chunk s = in_ /\ Tasks.recorded s = rec /\ Tasks.reads s = i.

(** ** The paths of [run] *)

(** The recording loop as a function of the flag alone: its result, the
    events it adds to the trace, and the flag it leaves. *)
Fixpoint loopOutcome (w : World) (fuel i : nat) (in_ rec : list Z) (flag : Z)
  : option (Result (list Z)) * (list Event * Z) :=
  match fuel with
  | O => (None, ([], flag))
  | S fuel' =>
      let flag1 := if fires w i then 1%Z else flag in
      if (flag1 =? 0)%Z then
        let in' := fillBuffer in_ (delivered (w_Read w i)) in
        match status (w_Read w i) with
        | ReadFailed err =>
            (Some (Err ("error reading from audio stream: " +:+ err)),
             ([EvStreamRead; EvSpinnerStop], flag1))
        | _ =>
            let '(r, (evs, fl)) :=
              loopOutcome w fuel' (S i) in' (rec ++ in') flag1 in
            (r, (EvStreamRead :: evs, fl))
        end
      else (Some (Ok rec), ([], flag1))
  end.

(** [run] is straight-line code between its returns: an execution follows
    one of fourteen paths, told apart by which call failed.  [Path] lists
    them, each with the conditions on the world under which it is taken,
    the result of [run], the events it adds to the trace, the files it
    leaves and what it prints; [run_path] below shows that [run] follows
    one of them. *)
Section Paths.
Variable parseJSON : string -> Result Json.Value.
Variable w : World.
Variable fuel : nat.
Variable env : gmap string string.   (* the environment when [run] starts *)
Variable fs : gmap string (list Z).  (* the files when [run] starts *)

(** [apiKey], as [run] reads it once [.env] is loaded. *)
Definition apiKeyOf : string :=
  default "" (loadEnv w env !! "OPENAI_API_KEY").

(** The calls up to the loop, when none fails. *)
Definition setup : list Event :=
  [EvInitialize; EvOpenDefaultStream channels 0 sampleRate framesPerChunk;
   EvStreamStart; EvSpinnerSuffix " Recording"; EvSpinnerStart].

(** The three deferred calls: [s.Stop()], [stream.Close()],
    [portaudio.Terminate()]. *)
Definition release : list Event :=
  [EvSpinnerStop; EvStreamClose; EvTerminate].

(** The key is there and the stream started. *)
Definition streaming : Prop :=
  apiKeyOf <> "" /\ w_Initialize w = None /\ w_OpenDefaultStream w = None /\
  w_Start w = None.

(** The loop was left with [data] recorded, having added [evs]. *)
Definition captured (data : list Z) (evs : list Event) : Prop :=
  streaming /\
  exists fl,
    loopOutcome w fuel 0 (replicate (Z.to_nat framesPerChunk) 0%Z) [] 0 =
    (Some (Ok data), (evs, fl)).

(** The stream stopped and [writeWavFile] returned [nil]. *)
Definition saved (data : list Z) (evs : list Event) : Prop :=
  captured data evs /\ w_Stop w = None /\ w_Create w = None /\
  w_Write w = None /\ w_Close w = None.

(** The calls up to [os.Open] in [transcribeAudio]. *)
Definition upload (evs : list Event) : list Event :=
  setup ++ evs ++
  [EvStreamStop; EvCreate tempFileName;
   EvSpinnerSuffix " Transcribing audio..."; EvOpen tempFileName].

(** What [writeWavFile] leaves in [temp.wav]. *)
Definition wavOf (data : list Z) : list Z :=
  Wav.encode sampleRate 16 channels 1 data.

(** The line [run] prints. *)
Definition printed (cmd : string) : string :=
  String "010" (Strings.TrimSpace cmd) +:+ String "010" "".

Inductive Path
  : option (Result unit) -> list Event -> gmap string (list Z) ->
    list string -> Prop :=
| path_no_key :
    apiKeyOf = "" ->
    Path (Some (Err keyMissing)) [] fs []
| path_initialize e :
    apiKeyOf <> "" -> w_Initialize w = Some e ->
    Path (Some (Err ("failed to initialize portaudio: " +:+ e)))
      [EvInitialize] fs []
| path_open e :
    apiKeyOf <> "" -> w_Initialize w = None ->
    w_OpenDefaultStream w = Some e ->
    Path (Some (Err ("failed to open audio stream: " +:+ e)))
      [EvInitialize; EvOpenDefaultStream channels 0 sampleRate framesPerChunk;
       EvTerminate] fs []
| path_start e :
    apiKeyOf <> "" -> w_Initialize w = None ->
    w_OpenDefaultStream w = None -> w_Start w = Some e ->
    Path (Some (Err ("failed to start audio stream: " +:+ e)))
      [EvInitialize; EvOpenDefaultStream channels 0 sampleRate framesPerChunk;
       EvStreamStart; EvStreamClose; EvTerminate] fs []
| path_polling evs fl :
    streaming ->
    loopOutcome w fuel 0 (replicate (Z.to_nat framesPerChunk) 0%Z) [] 0 =
      (None, (evs, fl)) ->
    Path None (setup ++ evs) fs []
| path_read e evs fl :
    streaming ->
    loopOutcome w fuel 0 (replicate (Z.to_nat framesPerChunk) 0%Z) [] 0 =
      (Some (Err e), (evs, fl)) ->
    Path (Some (Err e)) (setup ++ evs ++ release) fs []
| path_stop data evs e :
    captured data evs -> w_Stop w = Some e ->
    Path (Some (Err ("failed to stop audio stream: " +:+ e)))
      (setup ++ evs ++ [EvStreamStop] ++ release) fs []
| path_create data evs e :
    captured data evs -> w_Stop w = None -> w_Create w = Some e ->
    Path (Some (Err ("failed to write wav file: " +:+ e)))
      (setup ++ evs ++ [EvStreamStop; EvCreate tempFileName] ++ release)
      fs []
| path_write data evs n e :
    captured data evs -> w_Stop w = None -> w_Create w = None ->
    w_Write w = Some (n, e) ->
    Path (Some (Err ("failed to write wav file: " +:+ e)))
      (setup ++ evs ++ [EvStreamStop; EvCreate tempFileName] ++ release)
      (<[tempFileName :=
           firstn n (Wav.written sampleRate 16 channels 1 data)]> fs) []
| path_close data evs e :
    captured data evs -> w_Stop w = None -> w_Create w = None ->
    w_Write w = None -> w_Close w = Some e ->
    Path (Some (Err ("failed to write wav file: " +:+ e)))
      (setup ++ evs ++ [EvStreamStop; EvCreate tempFileName] ++ release)
      (<[tempFileName := Wav.written sampleRate 16 channels 1 data]> fs) []
| path_os_open data evs e :
    saved data evs -> w_Open w = Some e ->
    Path (Some (Err ("error transcribing audio: " +:+ e)))
      (upload evs ++ [EvSpinnerStop; EvRemove tempFileName] ++ release)
      (delete tempFileName fs) []
| path_transcribe data evs e :
    saved data evs -> w_Open w = None ->
    transcriptionResult parseJSON
      (w_Do w (transcriptionRequest w apiKeyOf tempFileName (wavOf data))) =
      Err e ->
    Path (Some (Err ("error transcribing audio: " +:+ e)))
      (upload evs ++
       [EvHTTP (transcriptionRequest w apiKeyOf tempFileName (wavOf data));
        EvSpinnerStop; EvRemove tempFileName] ++ release)
      (delete tempFileName fs) []
| path_generate data evs text e :
    saved data evs -> w_Open w = None ->
    transcriptionResult parseJSON
      (w_Do w (transcriptionRequest w apiKeyOf tempFileName (wavOf data))) =
      Ok text ->
    chatResult parseJSON (w_Do w (chatRequest apiKeyOf text)) = Err e ->
    Path (Some (Err ("error generating command: " +:+ e)))
      (upload evs ++
       [EvHTTP (transcriptionRequest w apiKeyOf tempFileName (wavOf data));
        EvSpinnerSuffix " Generating command...";
        EvHTTP (chatRequest apiKeyOf text);
        EvSpinnerStop; EvRemove tempFileName] ++ release)
      (delete tempFileName fs) []
| path_done data evs text cmd :
    saved data evs -> w_Open w = None ->
    transcriptionResult parseJSON
      (w_Do w (transcriptionRequest w apiKeyOf tempFileName (wavOf data))) =
      Ok text ->
    chatResult parseJSON (w_Do w (chatRequest apiKeyOf text)) = Ok cmd ->
    Path (Some (Ok tt))
      (upload evs ++
       [EvHTTP (transcriptionRequest w apiKeyOf tempFileName (wavOf data));
        EvSpinnerSuffix " Generating command...";
        EvHTTP (chatRequest apiKeyOf text);
        EvSpinnerStop; EvRemove tempFileName] ++ release)
      (delete tempFileName fs) [printed cmd].

End Paths.

(** ** What the statements on whole executions use *)

(** The environment in which [run] starts, [init] done. *)
Definition initEnv (w : World) : gmap string string :=
  <["JACK_NO_START_SERVER" := "1"]> (w_environ w).

(** [main] on the result of [run]: the exit status and the line printed. *)
Definition exitStatus (o : option (Result unit)) : option Z :=
  match o with
  | None => None
  | Some (Ok _) => Some 0%Z
  | Some (Err _) => Some 1%Z
  end.

Definition reported (o : option (Result unit)) : list string :=
  match o with
  | Some (Err err) => ["An error occurred: " +:+ err +:+ String "010" ""]
  | _ => []
  end.

(** The key is in the environment, or the environment lacks it and [.env]
    defines it, once. *)
Definition keyFrom (w : World) (key : string) : Prop :=
  w_environ w !! "OPENAI_API_KEY" = Some key \/
  (w_environ w !! "OPENAI_API_KEY" = None /\
   exists kvs,
     w_dotenv w = Some kvs /\ NoDup kvs.*1 /\
     In ("OPENAI_API_KEY", key) kvs).

(** The key is there and the device starts. *)
Definition ready (w : World) (key : string) : Prop :=
  keyFrom w key /\ key <> "" /\ w_Initialize w = None /\
  w_OpenDefaultStream w = None /\ w_Start w = None.

(** No store lands before the tests [0 .. k - 1] and no read fails after
    them; a store lands before the [k]-th test. *)
Definition stopsAt (w : World) (k : nat) : Prop :=
  (forall j, (j < k)%nat ->
     fires w j = false /\ failed (status (w_Read w j)) = false) /\
  fires w k = true.

(** What [k] turns of the loop append to the recording, from the [i]-th
    read on: the chunk buffer after each read. *)
Fixpoint heard (w : World) (i k : nat) (in_ : list Z) : list Z :=
  match k with
  | O => []
  | S k' =>
      let in' := fillBuffer in_ (delivered (w_Read w i)) in
      in' ++ heard w (S i) k' in'
  end.


(* ===================================================================== *)
(** * Sample executions                                                   *)
(* ===================================================================== *)

(** A toy scanner for the bodies the sample endpoints send, and a world in
    which the second read returns end of stream having delivered nothing,
    and a line on standard input stops the recording at the third test of
    the flag. *)
Module Demo.

Definition quoted (s : string) : string :=
  String "034" s +:+ String "034" "".

Definition textBody : string :=
  "{" +:+ quoted "text" +:+ ":" +:+ quoted "list files" +:+ "}".

Definition noTextBody : string :=
  "{" +:+ quoted "language" +:+ ":" +:+ quoted "en" +:+ "}".

Definition chatBody : string :=
  "{" +:+ quoted "choices" +:+ ":[{" +:+ quoted "message" +:+ ":{" +:+
  quoted "content" +:+ ":" +:+ quoted " ls -la " +:+ "}}]}".

Definition noChoicesBody : string :=
  "{" +:+ quoted "choices" +:+ ":[]}".

Definition parse (body : string) : Result Json.Value :=
  if String.eqb body textBody then
    Ok (Json.Object [("text", Json.Str "list files")])
  else if String.eqb body noTextBody then
    Ok (Json.Object [("language", Json.Str "en")])
  else if String.eqb body chatBody then
    Ok (Json.Object
          [("choices",
            Json.Array
              [Json.Object
                 [("message",
                   Json.Object [("content", Json.Str " ls -la ")])]])])
  else if String.eqb body noChoicesBody then
    Ok (Json.Object [("choices", Json.Array [])])
  else Err "invalid character".

Definition reply (code : Z) (body : string) : Result Response :=
  Ok {| StatusCode := code; Body := body |}.

Definition world (key : option string) (write : option (nat * error))
    (transcription chat : Result Response) : World :=
  {| w_environ :=
       match key with
       | Some k => <["OPENAI_API_KEY" := k]> (<["HOME" := "/root"]> ∅)
       | None => <["HOME" := "/root"]> ∅
       end;
     w_files := ∅;
     w_dotenv := Some [("EDITOR", "vi")];
     w_Initialize := None;
     w_OpenDefaultStream := None;
     w_Start := None;
     w_Read := fun n =>
       if Nat.eqb n 1 then {| delivered := []; status := ReadEOF |}
       else {| delivered := [Z.of_nat n + 1; -2]%Z; status := ReadOk |};
     w_Stop := None;
     w_enter := Some 2%nat;
     w_signal := Some 3%nat;
     w_Create := None;
     w_Write := write;
     w_Close := None;
     w_Open := None;
     w_boundary := "b0undary";
     w_Do := fun req =>
       if String.eqb (URL req) transcriptionsURL then transcription
       else chat |}.

(** The endpoints answer as the API documents. *)
Definition ok : World :=
  world (Some "sk-demo") None (reply 200 textBody) (reply 200 chatBody).

(** The chat endpoint returns no choice. *)
Definition noChoices : World :=
  world (Some "sk-demo") None (reply 200 textBody) (reply 200 noChoicesBody).

(** The transcription endpoint returns an object without [text]. *)
Definition noText : World :=
  world (Some "sk-demo") None (reply 200 noTextBody) (reply 200 chatBody).

(** Both endpoints return status 500. *)
Definition serverError : World :=
  world (Some "sk-demo") None (reply 500 "upstream down")
    (reply 500 "upstream down").

(** No key, in the environment or in [.env]. *)
Definition noKey : World :=
  world None None (reply 200 textBody) (reply 200 chatBody).

(** The disk is full once the 44 bytes of the header are written. *)
Definition diskFull : World :=
  world (Some "sk-demo")
    (Some (44%nat, "write temp.wav: no space left on device"))
    (reply 200 textBody) (reply 200 chatBody).

(** What [world] records: the chunk of the first read, twice. *)
Definition recording : list Z :=
  ([1; -2] ++ replicate 1022 0 ++ [1; -2] ++ replicate 1022 0)%Z.

End Demo.

(** Sample executions with a fault at one place, one file in the working
    directory, and whole chunks from the device: the [n]-th read delivers
    1024 samples of value [n]. *)
Module Cases.

Definition chunk (n : nat) : ReadResult :=
  {| delivered := replicate 1024 (Z.of_nat n); status := ReadOk |}.

Definition world (environ : gmap string string)
    (dotenv : option (list (string * string)))
    (initialize open start : option error) (read : nat -> ReadResult)
    (stop create reopen : option error) (do : Request -> Result Response)
  : World :=
  {| w_environ := environ;
     w_files := <["notes.txt" := [104; 105]%Z]> ∅;
     w_dotenv := dotenv;
     w_Initialize := initialize;
     w_OpenDefaultStream := open;
     w_Start := start;
     w_Read := read;
     w_Stop := stop;
     w_enter := Some 2%nat;
     w_signal := None;
     w_Create := create;
     w_Write := None;
     w_Close := None;
     w_Open := reopen;
     w_boundary := "b0undary";
     w_Do := do |}.

Definition keyed : gmap string string := <["OPENAI_API_KEY" := "sk-demo"]> ∅.

Definition answers (req : Request) : Result Response :=
  if String.eqb (URL req) transcriptionsURL then Demo.reply 200 Demo.textBody
  else Demo.reply 200 Demo.chatBody.

(** Everything works. *)
Definition fine : World :=
  world keyed None None None None chunk None None None answers.

(** The key comes from [.env], which also tries to set the JACK variable. *)
Definition dotenvKey : World :=
  world ∅
    (Some [("JACK_NO_START_SERVER", "0"); ("OPENAI_API_KEY", "sk-file")])
    None None None chunk None None None answers.

(** No audio host. *)
Definition noHost : World :=
  world keyed None (Some "Host API not found") None None chunk None None None
    answers.

(** No input device. *)
Definition noDevice : World :=
  world keyed None None (Some "Device unavailable") None chunk None None None
    answers.

(** The stream does not start. *)
Definition noStart : World :=
  world keyed None None None (Some "Unanticipated host error") chunk None
    None None answers.

(** The second read overflows. *)
Definition overflow : World :=
  world keyed None None None None
    (fun n =>
       if Nat.eqb n 1 then
         {| delivered := []; status := ReadFailed "Input overflowed" |}
       else chunk n)
    None None None answers.

(** The stream does not stop. *)
Definition noStop : World :=
  world keyed None None None None chunk (Some "Stream is stopped") None None
    answers.





(** What [fine] records: the first two chunks. *)
Definition recording : list Z :=
  (replicate 1024 0 ++ replicate 1024 1)%Z.

End Cases.

(* ===================================================================== *)
(** * The library functions on examples                                   *)
(* ===================================================================== *)

Example TrimSpace_ls : Strings.TrimSpace " ls -la " = "ls -la".
Proof. reflexivity. Qed.

Example TrimSpace_newlines :
  Strings.TrimSpace
    (String "010" (String "009" "echo hi  ") +:+
     String "013" (String "010" "")) = "echo hi".
Proof. reflexivity. Qed.

Example TrimSpace_nbsp :
  Strings.TrimSpace
    (String "194" (String "160" "x y") +:+
     String "226" (String "128" (String "137" ""))) = "x y".
Proof. reflexivity. Qed.

Example TrimSpace_blank : Strings.TrimSpace "   " = "".
Proof. reflexivity. Qed.

Example itoa_500 : Strings.itoa 500 = "500".
Proof. reflexivity. Qed.

Example Contains_ex :
  Strings.Contains "non-200 status code: 500 - oops" "500" = true.
Proof. reflexivity. Qed.

Example fold_ex : Strings.EqualFold "TeXt" "text" = true.
Proof. reflexivity. Qed.

Example Base_ex :
  filepath_Base "temp.wav" = "temp.wav" /\
  filepath_Base "/tmp/rec/temp.wav" = "temp.wav" /\
  filepath_Base "/tmp/rec/" = "rec" /\
  filepath_Base "//" = "/" /\ filepath_Base "" = ".".
Proof. repeat split; reflexivity. Qed.

Example unmarshal_text :
  unmarshalTranscription
    (Json.Object [("language", Json.Str "en"); ("Text", Json.Str "hi")])
    {| Text := "" |} = Ok {| Text := "hi" |}.
Proof. reflexivity. Qed.

Example unmarshal_text_null :
  unmarshalTranscription (Json.Object [("text", Json.Null)]) {| Text := "" |} =
  Ok {| Text := "" |}.
Proof. reflexivity. Qed.

Example unmarshal_text_number :
  unmarshalTranscription (Json.Object [("text", Json.Number "4")])
    {| Text := "" |} =
  Err "json: cannot unmarshal number into Go value of type string".
Proof. reflexivity. Qed.

Example unmarshal_choices_null :
  unmarshalChat (Json.Object [("choices", Json.Null)]) {| Choices := [] |} =
  Ok {| Choices := [] |}.
Proof. reflexivity. Qed.

Example unmarshal_choice_empty :
  unmarshalChat (Json.Object [("choices", Json.Array [Json.Object []])])
    {| Choices := [] |} =
  Ok {| Choices := [ {| Message := {| Content := "" |} |} ] |}.
Proof. reflexivity. Qed.

Example wav_empty :
  Wav.encode 44100 16 1 1 [] =
  [82; 73; 70; 70; 36; 0; 0; 0; 87; 65; 86; 69; 102; 109; 116; 32;
   16; 0; 0; 0; 1; 0; 1; 0; 68; 172; 0; 0; 136; 88; 1; 0; 2; 0; 16; 0;
   100; 97; 116; 97; 0; 0; 0; 0]%Z.
Proof. reflexivity. Qed.

Example wav_three :
  Wav.decode (Wav.encode 44100 16 1 1 [1; -1; 32767]%Z) =
  Some {| Wav.NumChannels := 1; Wav.SampleRate := 44100;
          Wav.Samples := [1; -1; 32767]%Z |}.
Proof. vm_compute. reflexivity. Qed.

(* ===================================================================== *)
(** * Facts about the library functions                                   *)
(* ===================================================================== *)

Section StringFacts.
Import Strings.












Lemma prefix_app a b : String.prefix a (a +:+ b) = true.
Proof.
  induction a as [|c a IH]; simpl; [now destruct b|].
  destruct (ascii_dec c c); [assumption | contradiction].
Qed.

(** A string contains each piece it is put together from. *)
Lemma Contains_app p x q : Contains (p +:+ x +:+ q) x = true.
Proof.
  induction p as [|c p IH].
  - change (Contains (x +:+ q) x = true).
    pose proof (prefix_app x q) as H.
    destruct (x +:+ q); cbn [Contains]; now rewrite H.
  - change (Contains (String c (p +:+ x +:+ q)) x = true).
    cbn [Contains]. rewrite IH. apply orb_true_r.
Qed.

End StringFacts.

Section WavFacts.
Import Wav.
Local Open Scope Z_scope.














End WavFacts.

(* ===================================================================== *)
(** * Facts about the program                                             *)
(* ===================================================================== *)

(** Symbolic execution of the monad: unfold the combinators and the
    primitives, leave the oracles, the loop and the library functions. *)
Ltac exec :=
  cbv beta iota zeta delta
      [bind ret throw running catch defer wrap emit call os_Setenv os_Getenv
       fmt_Printf atomic_StoreInt32 var_stopRecording atomic_LoadInt32
       os_Remove writeFile
       readFile os_Create enc_Write enc_Close os_Open client_Do init
       godotenv_Load
       set_environ set_files set_stdout set_trace set_stopRecording];
  cbn [environ files stdout trace stopRecording fst snd app].

Section SliceFacts.

Lemma insert_at_length (pre : list Z) x v tl :
  <[length pre := v]> (pre ++ x :: tl) = pre ++ v :: tl.
Proof. induction pre as [|a pre IH]; simpl; [reflexivity | now rewrite IH]. Qed.

Lemma rangeLoop_fill in_ pre :
  rangeLoop (length pre) in_ (pre ++ replicate (length in_) 0%Z) = pre ++ in_.
Proof.
  revert pre. induction in_ as [|v rest IH]; intros pre; simpl.
  - reflexivity.
  - rewrite insert_at_length.
    replace (pre ++ int v :: replicate (length rest) 0%Z)
      with ((pre ++ [v]) ++ replicate (length rest) 0%Z)
      by (now rewrite <- app_assoc).
    replace (S (length pre)) with (length (pre ++ [v]))
      by (rewrite length_app; simpl; lia).
    rewrite IH. now rewrite <- app_assoc.
Qed.

(** [int16ToIntSlice] returns the samples it is given. *)
Lemma int16ToIntSlice_id in_ : int16ToIntSlice in_ = in_.
Proof. apply (rangeLoop_fill in_ []). Qed.

End SliceFacts.

Section WriteFacts.
Variable w : World.

End WriteFacts.

Section LoopFacts.
Variable w : World.

Lemma watchers_spec i st :
  watchers w i st = (Some (Ok tt), afterWatchers w i st).
Proof.
  unfold watchers, watcher, afterWatchers, fires.
  destruct (bool_decide (w_enter w = Some i)),
    (bool_decide (w_signal w = Some i)); exec; reflexivity.
Qed.

(** One turn of the loop. *)
Lemma recordLoop_S fuel i in_ rec st :
  recordLoop w (S fuel) i in_ rec st =
  let st1 := afterWatchers w i st in
  if (stopRecording st1 =? 0)%Z then
    let in' := fillBuffer in_ (delivered (w_Read w i)) in
    let st2 := set_trace (fun t => t ++ [EvStreamRead]) st1 in
    match status (w_Read w i) with
    | ReadFailed err =>
        (Some (Err ("error reading from audio stream: " +:+ err)),
         set_trace (fun t => t ++ [EvSpinnerStop]) st2)
    | _ => recordLoop w fuel (S i) in' (rec ++ in') st2
    end
  else (Some (Ok rec), st1).
Proof.
  cbn [recordLoop]. unfold bind at 1. rewrite watchers_spec.
  unfold bind at 1. unfold atomic_LoadInt32 at 1.
  cbv zeta. destruct (stopRecording (afterWatchers w i st) =? 0)%Z; [|reflexivity].
  unfold stream_Read. exec.
  destruct (status (w_Read w i)); reflexivity.
Qed.

Lemma length_fillBuffer buf got : length (fillBuffer buf got) = length buf.
Proof.
  unfold fillBuffer. rewrite length_firstn, length_app, length_skipn. lia.
Qed.


(** The loop touches the flag and the trace only, and all it adds to the
    trace is device reads (and the spinner's stop on a read error). *)
Lemma recordLoop_frame fuel i in_ rec st r st' :
  recordLoop w fuel i in_ rec st = (r, st') ->
  environ st' = environ st /\ files st' = files st /\
  stdout st' = stdout st /\
  exists evs, trace st' = trace st ++ evs /\ Forall loopEvent evs.
Proof.
  revert i in_ rec st r st'.
  induction fuel as [|fuel IH]; intros i in_ rec st r st'.
  - intros [= <- <-]. repeat split. exists []. now rewrite app_nil_r.
  - rewrite recordLoop_S. cbv zeta.
    assert (Hw : environ (afterWatchers w i st) = environ st /\
                 files (afterWatchers w i st) = files st /\
                 stdout (afterWatchers w i st) = stdout st /\
                 trace (afterWatchers w i st) = trace st).
    { unfold afterWatchers. destruct (fires w i); auto. }
    destruct Hw as (He & Hf & Ho & Ht).
    destruct (stopRecording (afterWatchers w i st) =? 0)%Z.
    + destruct (status (w_Read w i)) eqn:Es.
      1,2: intros H; apply IH in H as (He' & Hf' & Ho' & evs & Ht' & Hevs);
        cbn [environ files stdout trace set_trace] in *;
        repeat split; try congruence;
        exists (EvStreamRead :: evs);
        (split; [rewrite Ht', Ht, <- app_assoc; reflexivity
                | constructor; [now left | assumption]]).
      intros [= <- <-]. cbn [environ files stdout trace set_trace].
      repeat split; try assumption.
      exists [EvStreamRead; EvSpinnerStop].
      split; [rewrite Ht, <- app_assoc; reflexivity|].
      constructor; [now left|]. constructor; [now right | constructor].
    + intros [= <- <-]. repeat split; try assumption.
      exists []. now rewrite app_nil_r.
Qed.

Lemma recordLoop_returns_from fuel i in_ rec st r st' :
  length in_ = 1024%nat ->
  recordLoop w fuel i in_ rec st = (Some r, st') ->
  exists k : nat,
    match r with
    | Ok recordedData =>
        stopRecording st' <> 0%Z /\
        length recordedData = (length rec + 1024 * k)%nat
    | Err e =>
        exists err,
          status (w_Read w (i + k)) = ReadFailed err /\
          e = "error reading from audio stream: " +:+ err
    end.
Proof.
  revert i in_ rec st.
  induction fuel as [|fuel IH]; intros i in_ rec st Hin; [discriminate|].
  rewrite recordLoop_S. cbv zeta.
  destruct (Z.eqb_spec (stopRecording (afterWatchers w i st)) 0) as [E|E].
  - assert (Hnext :
      recordLoop w fuel (S i) (fillBuffer in_ (delivered (w_Read w i)))
        (rec ++ fillBuffer in_ (delivered (w_Read w i)))
        (set_trace (fun t => t ++ [EvStreamRead]) (afterWatchers w i st)) =
      (Some r, st') ->
      exists k : nat,
        match r with
        | Ok recordedData =>
            stopRecording st' <> 0%Z /\
            length recordedData = (length rec + 1024 * k)%nat
        | Err e =>
            exists err,
              status (w_Read w (i + k)) = ReadFailed err /\
              e = "error reading from audio stream: " +:+ err
        end).
    { intros H. apply IH in H as [k Hk]; [|now rewrite length_fillBuffer].
      exists (S k). destruct r as [data|e].
      - rewrite length_app, length_fillBuffer, Hin in Hk.
        destruct Hk as [? ->]. split; [assumption | lia].
      - now replace (i + S k)%nat with (S i + k)%nat by lia. }
    destruct (status (w_Read w i)) eqn:Es; [assumption | assumption |].
    intros [= <- <-]. exists 0%nat. exists e.
    now rewrite Nat.add_0_r.
  - intros [= <- <-]. exists 0%nat. split; [assumption | lia].
Qed.

(** When a watcher's store lands before the [k]-th test from here, no
    store before it, and no read fails meanwhile, the loop stops there,
    given fuel for [k] turns and the stopping test. *)
Lemma recordLoop_stops k fuel i in_ rec st :
  length in_ = 1024%nat ->
  stopRecording st = 0%Z ->
  (forall j, (i <= j < i + k)%nat -> fires w j = false) ->
  (forall j, (i <= j < i + k)%nat -> failed (status (w_Read w j)) = false) ->
  fires w (i + k) = true ->
  (k < fuel)%nat ->
  exists recordedData st',
    recordLoop w fuel i in_ rec st = (Some (Ok recordedData), st') /\
    stopRecording st' = 1%Z /\
    length recordedData = (length rec + 1024 * k)%nat.
Proof.
  revert fuel i in_ rec st.
  induction k as [|k IH]; intros fuel i in_ rec st Hin Hflag Hquiet Hreads Hfire Hfuel;
    (destruct fuel as [|fuel]; [lia|]); rewrite recordLoop_S; cbv zeta;
    unfold afterWatchers.
  - rewrite Nat.add_0_r in Hfire. rewrite Hfire.
    cbn [stopRecording set_stopRecording Z.eqb].
    eexists _, _. split; [reflexivity|]. split; [reflexivity | lia].
  - rewrite (Hquiet i) by lia. rewrite Hflag. cbn [Z.eqb].
    pose proof (Hreads i ltac:(lia)) as Hok.
    destruct (IH fuel (S i) (fillBuffer in_ (delivered (w_Read w i)))
                (rec ++ fillBuffer in_ (delivered (w_Read w i)))
                (set_trace (fun t => t ++ [EvStreamRead]) st))
      as (data & st' & Hrun & Hst' & Hlen).
    + now rewrite length_fillBuffer.
    + assumption.
    + intros j Hj. apply Hquiet. lia.
    + intros j Hj. apply Hreads. lia.
    + now replace (S i + k)%nat with (i + S k)%nat by lia.
    + lia.
    + exists data, st'.
      rewrite length_app, length_fillBuffer, Hin in Hlen.
      destruct (status (w_Read w i)); [| |discriminate];
        (split; [assumption | split; [assumption | lia]]).
Qed.

End LoopFacts.

Lemma http_app t1 t2 : http (t1 ++ t2) = http t1 ++ http t2.
Proof.
  induction t1 as [|e t1 IH]; [reflexivity|].
  destruct e; cbn [app http]; rewrite IH; reflexivity.
Qed.

Lemma http_loop evs : Forall loopEvent evs -> http evs = [].
Proof.
  induction 1 as [|e evs [-> | ->] _ IH]; [reflexivity | assumption..].
Qed.

Lemma in_http req t : In (EvHTTP req) t <-> In req (http t).
Proof.
  induction t as [|e t IH]; [reflexivity|].
  destruct e; cbn [http In]; rewrite IH;
    try (split; [intros [?|?]; [discriminate | assumption] | now right]).
  split; (intros [H|H]; [left; congruence | now right]).
Qed.

Section RunFacts.
Variable parseJSON : string -> Result Json.Value.
Variable w : World.

Lemma foldl_lookup_None (kvs : list (string * string))
    (env : gmap string string) k :
  env !! k = None -> k ∉ kvs.*1 ->
  foldl (fun env kv =>
           match env !! kv.1 with
           | Some _ => env
           | None => <[kv.1 := kv.2]> env
           end) env kvs !! k = None.
Proof.
  revert env. induction kvs as [|[k' v'] kvs IH]; intros env Henv Hk; simpl;
    [assumption|].
  apply not_elem_of_cons in Hk as [Hne Hk]. simpl in Hne.
  apply IH; [|assumption].
  destruct (env !! k'); [assumption|]. now rewrite lookup_insert_ne.
Qed.

Lemma loadEnv_None (env : gmap string string) k :
  env !! k = None ->
  (forall kvs, w_dotenv w = Some kvs -> k ∉ kvs.*1) ->
  loadEnv w env !! k = None.
Proof.
  intros Henv Hdot. unfold loadEnv.
  destruct (w_dotenv w) as [kvs|]; [|assumption].
  apply foldl_lookup_None; auto.
Qed.

(** [generateBashCommand] sends one request and returns what the reply
    decodes to. *)
Lemma generateBashCommand_eq apiKey userText st :
  generateBashCommand parseJSON w apiKey userText st =
  (Some (chatResult parseJSON (w_Do w (chatRequest apiKey userText))),
   add_trace [EvHTTP (chatRequest apiKey userText)] st).
Proof.
  unfold generateBashCommand. fold (chatRequest apiKey userText).
  unfold chatResult, add_trace. exec.
  destruct (w_Do w (chatRequest apiKey userText)) as [resp|err]; [|reflexivity].
  destruct (negb (StatusCode resp =? 200)%Z); [reflexivity|].
  destruct (parseJSON (Body resp)) as [v|err]; [|reflexivity].
  destruct (unmarshalChat v _) as [chatResp|err]; [|reflexivity].
  destruct (Choices chatResp); reflexivity.
Qed.

(** [transcribeAudio] opens the file, and when that succeeds sends one
    request and returns what the reply decodes to. *)
Lemma transcribeAudio_eq apiKey filePath st :
  transcribeAudio parseJSON w apiKey filePath st =
  match w_Open w, files st !! filePath with
  | Some err, _ => (Some (Err err), add_trace [EvOpen filePath] st)
  | None, None =>
      (Some (Err ("open " +:+ filePath +:+ ": no such file or directory")),
       add_trace [EvOpen filePath] st)
  | None, Some file =>
      (Some (transcriptionResult parseJSON
               (w_Do w (transcriptionRequest w apiKey filePath file))),
       add_trace [EvOpen filePath;
                  EvHTTP (transcriptionRequest w apiKey filePath file)] st)
  end.
Proof.
  unfold transcribeAudio, transcriptionResult, add_trace. exec.
  destruct (w_Open w) as [err|]; [reflexivity|]. exec.
  destruct (files st !! filePath) as [file|]; [|reflexivity]. exec.
  fold (transcriptionRequest w apiKey filePath file).
  rewrite <- app_assoc. cbn [app].
  destruct (w_Do w (transcriptionRequest w apiKey filePath file)) as [resp|err];
    [|reflexivity].
  destruct (negb (StatusCode resp =? 200)%Z); [reflexivity|].
  destruct (parseJSON (Body resp)) as [v|err]; [|reflexivity].
  destruct (unmarshalTranscription v _) as [t|err]; reflexivity.
Qed.

(** [writeWavFile] returns, prints nothing, and adds the creation of the
    file to the trace. *)
Lemma writeWavFile_frame filename samples numChans sr st :
  exists r st',
    writeWavFile w filename samples numChans sr st = (Some r, st') /\
    stdout st' = stdout st /\
    trace st' = trace st ++ [EvCreate filename] /\
    (r = Ok tt ->
     files st' = <[filename := Wav.encode sr 16 numChans 1 samples]> (files st)) /\
    (w_Create w = None -> is_Some (files st' !! filename)).
Proof.
  unfold writeWavFile. rewrite int16ToIntSlice_id. exec.
  destruct (w_Create w) as [err|]; exec.
  { eexists _, _. split; [reflexivity|]. cbn [stdout trace files].
    split; [reflexivity|]. split; [reflexivity|].
    split; discriminate. }
  destruct (w_Write w) as [[n err]|]; exec.
  { eexists _, _. split; [reflexivity|]. cbn [stdout trace files].
    split; [reflexivity|]. split; [reflexivity|].
    split; [discriminate|]. intros _. rewrite lookup_insert_eq. eauto. }
  destruct (w_Close w) as [err|]; exec.
  { eexists _, _. split; [reflexivity|]. cbn [stdout trace files].
    split; [reflexivity|]. split; [reflexivity|].
    split; [discriminate|]. intros _. rewrite lookup_insert_eq. eauto. }
  eexists _, _. split; [reflexivity|]. cbn [stdout trace files].
  rewrite lookup_insert_eq. cbn [default]. rewrite !insert_insert_eq.
  split; [reflexivity|]. split; [reflexivity|].
  split; [reflexivity|]. intros _. rewrite lookup_insert_eq. eauto.
Qed.

Ltac leaf :=
  intros [= <- <-] Hout Hhttp; cbn [trace stdout files];
  repeat match goal with
         | H : trace _ = _ |- _ => rewrite H
         | H : stdout _ = _ |- _ => rewrite H
         end;
  rewrite ?http_app, ?Hhttp;
  repeat match goal with
         | H : Forall loopEvent _ |- _ => rewrite (http_loop _ H)
         end;
  cbn [http app].

(** How far [run] gets: to the chat request, to the transcription request
    only, or to no request at all. *)
Lemma run_cases fuel st o st' :
  run parseJSON w fuel st = (o, st') ->
  stdout st = [] -> http (trace st) = [] ->
  (exists apiKey file text,
      http (trace st') =
        [transcriptionRequest w apiKey tempFileName file;
         chatRequest apiKey text] /\
      transcriptionResult parseJSON
        (w_Do w (transcriptionRequest w apiKey tempFileName file)) = Ok text /\
      files st' !! tempFileName = None /\
      match chatResult parseJSON (w_Do w (chatRequest apiKey text)) with
      | Ok cmd =>
          o = Some (Ok tt) /\
          stdout st' =
            [String "010" (Strings.TrimSpace cmd) +:+ String "010" ""]
      | Err e =>
          o = Some (Err ("error generating command: " +:+ e)) /\
          stdout st' = []
      end) \/
  (exists apiKey file e,
      http (trace st') = [transcriptionRequest w apiKey tempFileName file] /\
      transcriptionResult parseJSON
        (w_Do w (transcriptionRequest w apiKey tempFileName file)) = Err e /\
      files st' !! tempFileName = None /\
      o = Some (Err ("error transcribing audio: " +:+ e)) /\
      stdout st' = []) \/
  (http (trace st') = [] /\ stdout st' = [] /\
   (o = None \/ exists e, o = Some (Err e))).
Proof.
  unfold run. exec.
  set (apiKey := default "" (loadEnv w (environ st) !! "OPENAI_API_KEY")).
  destruct (apiKey =? "")%string.
  { leaf. right; right. eauto. }
  destruct (w_Initialize w) as [e|]; exec.
  { leaf. right; right. eauto. }
  destruct (w_OpenDefaultStream w) as [e|]; exec.
  { leaf. right; right. eauto. }
  destruct (w_Start w) as [e|]; exec.
  { leaf. right; right. eauto. }
  match goal with
  | |- context [recordLoop w fuel 0 ?b [] ?s] =>
      destruct (recordLoop w fuel 0 b [] s) as [[[data|e]|] stL] eqn:EL;
      apply recordLoop_frame in EL as (_ & HfL & HoL & evs & HtL & Hevs);
      cbn [environ files stdout trace] in HfL, HoL, HtL
  end; exec.
  2:{ leaf. right; right. eauto. }
  2:{ leaf. right; right. eauto. }
  destruct (w_Stop w) as [e|]; exec.
  { leaf. right; right. eauto. }
  match goal with
  | |- context [writeWavFile w ?f ?d ?c ?r ?s] =>
      destruct (writeWavFile_frame f d c r s)
        as ([[]|e] & stW & -> & HoW & HtW & HfW & _);
      cbn [stdout trace] in HoW, HtW
  end; exec.
  2:{ leaf. right; right. eauto. }
  rewrite transcribeAudio_eq. unfold add_trace. exec.
  destruct (w_Open w) as [e|]; exec.
  { leaf. right; right. eauto. }
  rewrite (HfW eq_refl), lookup_insert_eq. exec.
  set (file := Wav.encode sampleRate 16 channels 1 data).
  destruct (transcriptionResult parseJSON
              (w_Do w (transcriptionRequest w apiKey tempFileName file)))
    as [text|e] eqn:ET; exec.
  2:{ leaf. right; left. exists apiKey, file, e.
      rewrite lookup_delete_eq. auto. }
  rewrite generateBashCommand_eq. unfold add_trace. exec.
  destruct (chatResult parseJSON (w_Do w (chatRequest apiKey text))) as [cmd|e] eqn:EG;
    exec; leaf; left; exists apiKey, file, text;
    (split; [reflexivity|]); (split; [assumption|]);
    rewrite EG, lookup_delete_eq, ?Hout; auto.
Qed.
End RunFacts.

(* ===================================================================== *)
(** * The pipeline                                                        *)
(* ===================================================================== *)

Section Claims.
Variable parseJSON : string -> Result Json.Value.
Variable w : World.

(** The state in which [run] starts, [init] done. *)
Lemma main_eq fuel :
  main parseJSON w fuel =
  match run parseJSON w fuel
          (add_trace [EvSetJackErrorHandler; EvSetAlsaErrorHandler]
             (set_environ (insert "JACK_NO_START_SERVER" "1") (start w)))
  with
  | (None, st) => (None, st)
  | (Some (Ok _), st) => (Some 0%Z, st)
  | (Some (Err err), st) =>
      (Some 1%Z,
       set_stdout
         (fun o => o ++ ["An error occurred: " +:+ err +:+ String "010" ""])
         st)
  end.
Proof. reflexivity. Qed.

(** The requests, the exit status and the output of [main], by how far
    [run] got. *)
Lemma main_cases fuel :
  (exists apiKey file text,
      http (trace (main parseJSON w fuel).2) =
        [transcriptionRequest w apiKey tempFileName file;
         chatRequest apiKey text] /\
      transcriptionResult parseJSON
        (w_Do w (transcriptionRequest w apiKey tempFileName file)) = Ok text /\
      files (main parseJSON w fuel).2 !! tempFileName = None /\
      match chatResult parseJSON (w_Do w (chatRequest apiKey text)) with
      | Ok cmd =>
          (main parseJSON w fuel).1 = Some 0%Z /\
          stdout (main parseJSON w fuel).2 =
            [String "010" (Strings.TrimSpace cmd) +:+ String "010" ""]
      | Err e =>
          (main parseJSON w fuel).1 = Some 1%Z /\
          stdout (main parseJSON w fuel).2 =
            ["An error occurred: error generating command: " +:+ e +:+
             String "010" ""]
      end) \/
  (exists apiKey file e,
      http (trace (main parseJSON w fuel).2) =
        [transcriptionRequest w apiKey tempFileName file] /\
      transcriptionResult parseJSON
        (w_Do w (transcriptionRequest w apiKey tempFileName file)) = Err e /\
      files (main parseJSON w fuel).2 !! tempFileName = None /\
      (main parseJSON w fuel).1 = Some 1%Z /\
      stdout (main parseJSON w fuel).2 =
        ["An error occurred: error transcribing audio: " +:+ e +:+
         String "010" ""]) \/
  http (trace (main parseJSON w fuel).2) = [].
Proof.
  rewrite main_eq.
  destruct (run parseJSON w fuel _) as [o st'] eqn:ER.
  apply run_cases in ER; [|reflexivity..].
  destruct ER as [(apiKey & file & text & Hh & HT & Hf & HG)
                 |[(apiKey & file & e & Hh & HT & Hf & -> & Ho)
                  |(Hh & Ho & Hr)]].
  - left. exists apiKey, file, text.
    destruct (chatResult parseJSON (w_Do w (chatRequest apiKey text)))
      as [cmd|e]; destruct HG as [-> Ho]; cbn [fst snd trace files stdout set_stdout];
      rewrite ?Ho; auto.
  - right; left. exists apiKey, file, e.
    cbn [fst snd trace files stdout set_stdout]. rewrite Ho. auto.
  - right; right. destruct Hr as [->|[e ->]]; assumption.
Qed.

(** A request to the chat endpoint in the trace is the second of two. *)
Lemma chat_request_inv fuel req :
  In (EvHTTP req) (trace (main parseJSON w fuel).2) ->
  URL req = completionsURL ->
  exists apiKey text,
    req = chatRequest apiKey text /\
    match chatResult parseJSON (w_Do w req) with
    | Ok cmd =>
        (main parseJSON w fuel).1 = Some 0%Z /\
        stdout (main parseJSON w fuel).2 =
          [String "010" (Strings.TrimSpace cmd) +:+ String "010" ""]
    | Err e =>
        (main parseJSON w fuel).1 = Some 1%Z /\
        stdout (main parseJSON w fuel).2 =
          ["An error occurred: error generating command: " +:+ e +:+
           String "010" ""]
    end.
Proof.
  intros Hin Hurl. apply in_http in Hin.
  destruct (main_cases fuel)
    as [(apiKey & file & text & Hh & _ & _ & HG)
       |[(apiKey & file & e & Hh & _)|Hh]];
    rewrite Hh in Hin; cbn [In] in Hin.
  - destruct Hin as [<-|[<-|[]]]; [discriminate Hurl|].
    exists apiKey, text. split; [reflexivity | assumption].
  - destruct Hin as [<-|[]]. discriminate Hurl.
  - destruct Hin.
Qed.

(** A request to the transcription endpoint in the trace is the first. *)
Lemma transcription_request_inv fuel req :
  In (EvHTTP req) (trace (main parseJSON w fuel).2) ->
  URL req = transcriptionsURL ->
  exists apiKey,
    match transcriptionResult parseJSON (w_Do w req) with
    | Ok text =>
        In (EvHTTP (chatRequest apiKey text))
          (trace (main parseJSON w fuel).2)
    | Err e =>
        (main parseJSON w fuel).1 = Some 1%Z /\
        stdout (main parseJSON w fuel).2 =
          ["An error occurred: error transcribing audio: " +:+ e +:+
           String "010" ""]
    end.
Proof.
  intros Hin Hurl. apply in_http in Hin.
  destruct (main_cases fuel)
    as [(apiKey & file & text & Hh & HT & _)
       |[(apiKey & file & e & Hh & HT & _ & Hc & Ho)|Hh]];
    rewrite Hh in Hin; cbn [In] in Hin.
  - destruct Hin as [<-|[<-|[]]]; [|discriminate Hurl].
    exists apiKey. rewrite HT. apply in_http. rewrite Hh. right; now left.
  - destruct Hin as [<-|[]]. exists apiKey. rewrite HT. auto.
  - destruct Hin.
Qed.


(** C4.  Whenever the chat endpoint answers the program's request with
    status 200 and a body that decodes to an empty list of choices,
    [generateBashCommand] returns the error "no choices returned from chat
    completion", and the process prints it and exits with status 1. *)
Theorem no_choices_fatal fuel req resp v chatResp :
  In (EvHTTP req) (trace (main parseJSON w fuel).2) ->
  URL req = completionsURL ->
  w_Do w req = Ok resp ->
  StatusCode resp = 200%Z ->
  parseJSON (Body resp) = Ok v ->
  unmarshalChat v {| Choices := [] |} = Ok chatResp ->
  Choices chatResp = [] ->
  (exists apiKey userText,
      req = chatRequest apiKey userText /\
      forall st,
        (generateBashCommand parseJSON w apiKey userText st).1 =
        Some (Err "no choices returned from chat completion")) /\
  (main parseJSON w fuel).1 = Some 1%Z /\
  (exists msg,
      stdout (main parseJSON w fuel).2 = [msg] /\
      Strings.Contains msg "no choices returned" = true).
Proof.
  intros Hin Hurl Hdo Hcode Hparse Hdec Hch.
  destruct (chat_request_inv fuel req Hin Hurl) as (apiKey & text & Hreq & H).
  assert (HR : chatResult parseJSON (w_Do w req) =
               Err "no choices returned from chat completion").
  { unfold chatResult. now rewrite Hdo, Hcode, Hparse, Hdec, Hch. }
  rewrite HR in H. destruct H as [Hexit Hout].
  split; [|split; [assumption|]].
  - exists apiKey, text. split; [assumption|]. intros st.
    rewrite generateBashCommand_eq. cbn [fst]. now rewrite <- Hreq, HR.
  - eexists. split; [eassumption|]. reflexivity.
Qed.

Lemma intoStruct_skip {T : Type} (name : string)
    (store : Json.Value -> T -> Result T) fields (cur : T) :
  Json.member name fields = None ->
  Json.intoStruct
    (fun k x t => if Json.matches name k then store x t else Ok t)
    fields cur = Ok cur.
Proof.
  induction fields as [|[k x] fields IH]; cbn [Json.member Json.intoStruct];
    [reflexivity|].
  destruct (Json.matches name k); [discriminate | assumption].
Qed.

Lemma append_assoc (a b c : string) : (a +:+ b) +:+ c = a +:+ b +:+ c.
Proof.
  induction a as [|x a IH]; [reflexivity|].
  change (String x ((a +:+ b) +:+ c) = String x (a +:+ b +:+ c)).
  now rewrite IH.
Qed.

Lemma append_empty_r (a : string) : a +:+ "" = a.
Proof.
  induction a as [|x a IH]; [reflexivity|].
  change (String x (a +:+ "") = String x a). now rewrite IH.
Qed.

(** The message of a non-200 reply, however it is wrapped, contains the
    status code and the body. *)
Lemma Contains_non200 pre post resp :
  Strings.Contains (pre +:+ non200 resp +:+ post)
    (Strings.itoa (StatusCode resp)) = true /\
  Strings.Contains (pre +:+ non200 resp +:+ post) (Body resp) = true.
Proof.
  unfold non200. split.
  - rewrite <- (append_assoc pre), !append_assoc,
      <- (append_assoc pre "non-200 status code: ").
    apply Contains_app.
  - rewrite !append_assoc,
      <- (append_assoc pre "non-200 status code: "),
      <- (append_assoc _ (Strings.itoa (StatusCode resp))),
      <- (append_assoc _ " - ").
    apply Contains_app.
Qed.

(** C10.  When the transcription endpoint answers with status 200 and a
    JSON object in which no member names the [text] field,
    [transcribeAudio] returns the empty string and no error, and the
    pipeline goes on to send the chat request with the empty string as
    the user message. *)
Theorem missing_text_is_empty resp fields :
  StatusCode resp = 200%Z ->
  parseJSON (Body resp) = Ok (Json.Object fields) ->
  Json.member "text" fields = None ->
  (forall apiKey filePath file st,
      w_Open w = None ->
      files st !! filePath = Some file ->
      w_Do w (transcriptionRequest w apiKey filePath file) = Ok resp ->
      (transcribeAudio parseJSON w apiKey filePath st).1 = Some (Ok "")) /\
  (forall fuel req,
      In (EvHTTP req) (trace (main parseJSON w fuel).2) ->
      URL req = transcriptionsURL ->
      w_Do w req = Ok resp ->
      exists apiKey,
        In (EvHTTP (chatRequest apiKey ""))
          (trace (main parseJSON w fuel).2)).
Proof.
  intros Hcode Hparse Hmem.
  assert (HR : transcriptionResult parseJSON (Ok resp) = Ok "").
  { unfold transcriptionResult. rewrite Hcode, Hparse. cbn [Z.eqb negb].
    unfold unmarshalTranscription.
    now rewrite (intoStruct_skip "text"
                   (fun x t => match Json.intoString x (Text t) with
                               | Ok s => Ok {| Text := s |}
                               | Err e => Err e
                               end)). }
  split.
  - intros apiKey filePath file st Hopen Hfile Hdo.
    rewrite transcribeAudio_eq, Hopen, Hfile, Hdo, HR. reflexivity.
  - intros fuel req Hin Hurl Hdo.
    destruct (transcription_request_inv fuel req Hin Hurl) as [apiKey H].
    rewrite Hdo, HR in H. eauto.
Qed.

(** C5.  A reply with a status other than 200 makes each client return an
    error, after the one request it sent; the message of the error
    contains the status code in decimal and the body of the reply.  In
    the pipeline that request is the last one sent, and the process prints
    the message, exits with status 1, and has removed the temporary
    file. *)
Theorem non200_is_error resp :
  StatusCode resp <> 200%Z ->
  (Strings.Contains (non200 resp) (Strings.itoa (StatusCode resp)) = true /\
   Strings.Contains (non200 resp) (Body resp) = true) /\
  (forall apiKey filePath file st,
      w_Open w = None ->
      files st !! filePath = Some file ->
      w_Do w (transcriptionRequest w apiKey filePath file) = Ok resp ->
      exists st',
        transcribeAudio parseJSON w apiKey filePath st =
          (Some (Err (non200 resp)), st') /\
        http (trace st') =
          http (trace st) ++ [transcriptionRequest w apiKey filePath file]) /\
  (forall apiKey userText st,
      w_Do w (chatRequest apiKey userText) = Ok resp ->
      exists st',
        generateBashCommand parseJSON w apiKey userText st =
          (Some (Err (non200 resp)), st') /\
        http (trace st') = http (trace st) ++ [chatRequest apiKey userText]) /\
  (forall fuel req,
      In (EvHTTP req) (trace (main parseJSON w fuel).2) ->
      w_Do w req = Ok resp ->
      (main parseJSON w fuel).1 = Some 1%Z /\
      files (main parseJSON w fuel).2 !! tempFileName = None /\
      (exists before, http (trace (main parseJSON w fuel).2) = before ++ [req]) /\
      exists msg,
        stdout (main parseJSON w fuel).2 = [msg] /\
        Strings.Contains msg (Strings.itoa (StatusCode resp)) = true /\
        Strings.Contains msg (Body resp) = true).
Proof.
  intros Hcode.
  assert (Hneq : negb (StatusCode resp =? 200)%Z = true).
  { apply negb_true_iff. now apply Z.eqb_neq. }
  assert (HT : transcriptionResult parseJSON (Ok resp) = Err (non200 resp)).
  { unfold transcriptionResult. now rewrite Hneq. }
  assert (HG : chatResult parseJSON (Ok resp) = Err (non200 resp)).
  { unfold chatResult. now rewrite Hneq. }
  split; [|split; [|split]].
  - pose proof (Contains_non200 "" "" resp) as [H1 H2].
    change ("" +:+ non200 resp +:+ "") with (non200 resp +:+ "") in H1, H2.
    rewrite append_empty_r in H1, H2. auto.
  - intros apiKey filePath file st Hopen Hfile Hdo.
    rewrite transcribeAudio_eq, Hopen, Hfile, Hdo, HT.
    eexists. split; [reflexivity|].
    unfold add_trace. cbn [trace set_trace]. rewrite http_app. reflexivity.
  - intros apiKey userText st Hdo.
    rewrite generateBashCommand_eq, Hdo, HG.
    eexists. split; [reflexivity|].
    unfold add_trace. cbn [trace set_trace]. rewrite http_app. reflexivity.
  - intros fuel req Hin Hdo. apply in_http in Hin.
    destruct (main_cases fuel)
      as [(apiKey & file & text & Hh & HTr & Hf & HGr)
         |[(apiKey & file & e & Hh & HTr & Hf & Hc & Ho)|Hh]];
      rewrite Hh in Hin; cbn [In] in Hin.
    + destruct Hin as [<-|[<-|[]]].
      * rewrite Hdo, HT in HTr. discriminate.
      * rewrite Hdo, HG in HGr. destruct HGr as [Hc Ho].
        split; [assumption|]. split; [assumption|].
        split; [now exists [transcriptionRequest w apiKey tempFileName file]|].
        eexists. split; [eassumption|]. apply Contains_non200.
    + destruct Hin as [<-|[]]. rewrite Hdo, HT in HTr.
      injection HTr as <-.
      split; [assumption|]. split; [assumption|].
      split; [now exists []|].
      eexists. split; [eassumption|]. apply Contains_non200.
    + destruct Hin.
Qed.

(** C6.  When neither the environment nor the [.env] file supplies
    [OPENAI_API_KEY], the process prints the configuration error and exits
    with status 1, and the only calls it has made are the two
    error-handler registrations of [init]: the audio library was not
    initialised and no device was opened, started or read. *)
Theorem missing_key_fails_before_audio fuel :
  w_environ w !! "OPENAI_API_KEY" = None ->
  (forall kvs, w_dotenv w = Some kvs -> "OPENAI_API_KEY" ∉ kvs.*1) ->
  (main parseJSON w fuel).1 = Some 1%Z /\
  stdout (main parseJSON w fuel).2 =
    ["An error occurred: " +:+ keyMissing +:+ String "010" ""] /\
  trace (main parseJSON w fuel).2 =
    [EvSetJackErrorHandler; EvSetAlsaErrorHandler] /\
  Forall (fun e => isAudio e = false) (trace (main parseJSON w fuel).2).
Proof.
  intros Henv Hdot.
  assert (Hk : loadEnv w (<["JACK_NO_START_SERVER" := "1"]> (w_environ w))
                 !! "OPENAI_API_KEY" = None).
  { apply loadEnv_None; [now rewrite lookup_insert_ne | assumption]. }
  unfold main, run, start. exec. rewrite Hk. cbn [default String.eqb].
  exec. split; [reflexivity|]. split; [reflexivity|].
  split; [reflexivity|]. repeat constructor.
Qed.

End Claims.

Section TempFile.
Variable parseJSON : string -> Result Json.Value.
Variable w : World.

(** When [os.Create] succeeds and the encoder's [Write] or [Close] fails,
    [writeWavFile] returns the error and leaves the file it created. *)
Lemma writeWavFile_fails filename samples numChans sr st :
  w_Create w = None ->
  w_Write w <> None \/ w_Close w <> None ->
  exists e st',
    writeWavFile w filename samples numChans sr st = (Some (Err e), st') /\
    trace st' = trace st ++ [EvCreate filename] /\
    is_Some (files st' !! filename).
Proof.
  intros Hc Hfail. unfold writeWavFile. rewrite int16ToIntSlice_id. exec.
  rewrite Hc. exec.
  destruct (w_Write w) as [[n err]|]; exec.
  { eexists _, _. split; [reflexivity|]. cbn [trace files].
    split; [reflexivity|]. rewrite lookup_insert_eq. eauto. }
  destruct (w_Close w) as [err|]; exec.
  { eexists _, _. split; [reflexivity|]. cbn [trace files].
    split; [reflexivity|]. rewrite lookup_insert_eq. eauto. }
  destruct Hfail as [H|H]; contradiction.
Qed.

Lemma loopEvent_not_file evs name :
  Forall loopEvent evs ->
  ~ In (EvCreate name) evs /\ ~ In (EvRemove name) evs.
Proof.
  induction 1 as [|e evs [-> | ->] _ [IH1 IH2]]; cbn [In];
    (split; intros H; [|]; try destruct H as [H|H];
     try discriminate H; try contradiction; auto).
Qed.

Ltac absent :=
  intros [= <- <-] Hnc Hnr Hin; exfalso; cbn [trace] in Hin;
  repeat match goal with
         | H : trace _ = _ |- _ => rewrite H in Hin
         end;
  rewrite ?in_app_iff in Hin; cbn [In] in Hin;
  repeat match goal with
         | H : Forall loopEvent _ |- _ =>
             apply (loopEvent_not_file _ tempFileName) in H as [? ?]
         end;
  intuition discriminate.

(** [run] on the path where the file is created and its writing fails. *)
Lemma run_write_failure fuel st o st' :
  run parseJSON w fuel st = (o, st') ->
  ~ In (EvCreate tempFileName) (trace st) ->
  ~ In (EvRemove tempFileName) (trace st) ->
  In (EvCreate tempFileName) (trace st') ->
  w_Create w = None ->
  w_Write w <> None \/ w_Close w <> None ->
  (exists e, o = Some (Err ("failed to write wav file: " +:+ e))) /\
  is_Some (files st' !! tempFileName) /\
  ~ In (EvRemove tempFileName) (trace st') /\
  http (trace st') = http (trace st).
Proof.
  unfold run. exec.
  set (apiKey := default "" (loadEnv w (environ st) !! "OPENAI_API_KEY")).
  destruct (apiKey =? "")%string; [absent|].
  destruct (w_Initialize w) as [e|]; exec; [absent|].
  destruct (w_OpenDefaultStream w) as [e|]; exec; [absent|].
  destruct (w_Start w) as [e|]; exec; [absent|].
  match goal with
  | |- context [recordLoop w fuel 0 ?b [] ?s] =>
      destruct (recordLoop w fuel 0 b [] s) as [[[data|e]|] stL] eqn:EL;
      apply recordLoop_frame in EL as (_ & HfL & HoL & evs & HtL & Hevs);
      cbn [environ files stdout trace] in HfL, HoL, HtL
  end; exec; [|absent..].
  destruct (w_Stop w) as [e|]; exec; [absent|].
  intros Hrun Hnc Hnr Hin Hc Hfail. revert Hrun.
  match goal with
  | |- context [writeWavFile w ?f ?d ?c ?r ?s] =>
      destruct (writeWavFile_fails f d c r s Hc Hfail)
        as (e & stW & -> & HtW & HfW);
      cbn [trace] in HtW
  end; exec.
  intros [= <- <-]. cbn [trace files].
  split; [eauto|]. split; [assumption|].
  rewrite HtW, HtL.
  apply (loopEvent_not_file _ tempFileName) in Hevs as H0.
  destruct H0 as [_ Hevr].
  split.
  - rewrite !in_app_iff. cbn [In]. intuition discriminate.
  - rewrite !http_app, (http_loop _ Hevs). cbn [http app].
    now rewrite !app_nil_r.
Qed.

(** The process on that path: it exits with status 1, the file still
    there, and no call to [os.Remove] made. *)
Lemma main_write_failure fuel :
  In (EvCreate tempFileName) (trace (main parseJSON w fuel).2) ->
  w_Create w = None ->
  w_Write w <> None \/ w_Close w <> None ->
  (main parseJSON w fuel).1 = Some 1%Z /\
  (exists e,
      stdout (main parseJSON w fuel).2 =
        ["An error occurred: failed to write wav file: " +:+ e +:+
         String "010" ""]) /\
  is_Some (files (main parseJSON w fuel).2 !! tempFileName) /\
  ~ In (EvRemove tempFileName) (trace (main parseJSON w fuel).2).
Proof.
  rewrite main_eq.
  destruct (run parseJSON w fuel _) as [o st'] eqn:ER.
  intros Hin Hc Hfail.
  assert (Hin' : In (EvCreate tempFileName) (trace st')).
  { destruct o as [[[]|e]|]; exact Hin. }
  pose proof ER as Hcases.
  apply run_cases in Hcases; [|reflexivity..].
  apply run_write_failure in ER; try assumption.
  - destruct ER as ([e ->] & Hfile & Hnr & Hh).
    cbn [fst snd stdout files trace set_stdout].
    split; [reflexivity|]. split; [|split; assumption].
    exists e.
    destruct Hcases as [(? & ? & ? & Hh' & _)|[(? & ? & ? & Hh' & _)|(_ & -> & _)]];
      [rewrite Hh in Hh'; discriminate Hh'.. | reflexivity].
  - cbn. intros [H|[H|[]]]; discriminate H.
  - cbn. intros [H|[H|[]]]; discriminate H.
Qed.

End TempFile.

(** C7.  The file is not removed on every exit path on which it was
    created.  Here [os.Create] succeeds and the encoder's [Write] fails
    after 44 bytes (the disk is full): [run] returns the error before the
    removal is deferred, and the process exits with status 1, having sent
    no request and made no call to [os.Remove]; [temp.wav] is still there,
    holding the bytes that reached it. *)
Theorem temp_wav_left_after_write_error :
  (main Demo.parse Demo.diskFull 4).1 = Some 1%Z /\
  stdout (main Demo.parse Demo.diskFull 4).2 =
    ["An error occurred: failed to write wav file: write temp.wav: no space left on device" +:+
     String "010" ""] /\
  In (EvCreate tempFileName) (trace (main Demo.parse Demo.diskFull 4).2) /\
  ~ In (EvRemove tempFileName) (trace (main Demo.parse Demo.diskFull 4).2) /\
  http (trace (main Demo.parse Demo.diskFull 4).2) = [] /\
  files (main Demo.parse Demo.diskFull 4).2 !! tempFileName =
    Some (firstn 44 (Wav.written sampleRate 16 channels 1 Demo.recording)).
Proof.
  assert (Hin : In (EvCreate tempFileName)
                  (trace (main Demo.parse Demo.diskFull 4).2))
    by (vm_compute; auto 20).
  destruct (main_write_failure Demo.parse Demo.diskFull 4 Hin eq_refl)
    as (H1 & _ & _ & H2); [left; discriminate|].
  split; [exact H1|]. split; [vm_compute; reflexivity|].
  split; [exact Hin|]. split; [exact H2|].
  split; vm_compute; reflexivity.
Qed.

Section MoreClaims.
Variable w : World.




Lemma recordLoop_polls fuel i in_ rec st :
  stopRecording st = 0%Z ->
  (forall j, fires w j = false) ->
  (forall j, failed (status (w_Read w j)) = false) ->
  (recordLoop w fuel i in_ rec st).1 = None.
Proof.
  intros Hflag Hquiet Hreads. revert i in_ rec st Hflag.
  induction fuel as [|fuel IH]; intros i in_ rec st Hflag; [reflexivity|].
  rewrite recordLoop_S. cbv zeta. unfold afterWatchers.
  rewrite Hquiet, Hflag. cbn [Z.eqb].
  pose proof (Hreads i) as Hok.
  destruct (status (w_Read w i)); [apply IH; assumption.. | discriminate].
Qed.

(** C3.  Whatever the recording loop returns, it returns for one of two
    reasons: its test read the flag as set (and then the samples recorded
    are a whole number of 1024-sample chunks), or a read failed with an
    error other than end of stream (and then [run] returns that error).
    It does stop at the first test after a watcher's store when no read
    fails before; and with the flag never set and no read failing it
    polls for ever. *)
Theorem recordLoop_exit :
  (forall fuel st,
      match recordLoop w fuel 0 (replicate (Z.to_nat framesPerChunk) 0%Z) [] st with
      | (Some (Ok recordedData), st') =>
          stopRecording st' <> 0%Z /\
          exists k, length recordedData = (1024 * k)%nat
      | (Some (Err e), _) =>
          exists k err,
            status (w_Read w k) = ReadFailed err /\
            e = "error reading from audio stream: " +:+ err
      | (None, _) => True
      end) /\
  (forall k fuel st,
      stopRecording st = 0%Z ->
      (forall j, (j < k)%nat -> fires w j = false) ->
      (forall j, (j < k)%nat -> failed (status (w_Read w j)) = false) ->
      fires w k = true ->
      (k < fuel)%nat ->
      exists recordedData st',
        recordLoop w fuel 0 (replicate (Z.to_nat framesPerChunk) 0%Z) [] st =
          (Some (Ok recordedData), st') /\
        stopRecording st' = 1%Z /\
        length recordedData = (1024 * k)%nat) /\
  (forall fuel st,
      stopRecording st = 0%Z ->
      (forall j, fires w j = false) ->
      (forall j, failed (status (w_Read w j)) = false) ->
      (recordLoop w fuel 0 (replicate (Z.to_nat framesPerChunk) 0%Z) [] st).1 =
      None).
Proof.
  split; [|split].
  - intros fuel st.
    destruct (recordLoop w fuel 0 _ [] st) as [[r|] st'] eqn:E; [|exact I].
    apply recordLoop_returns_from in E as [k Hk]; [|apply length_replicate].
    destruct r as [data|e].
    + destruct Hk as [Hflag Hlen]. split; [assumption|]. now exists k.
    + destruct Hk as (err & Hs & He). now exists k, err.
  - intros k fuel st Hflag Hquiet Hreads Hfire Hfuel.
    destruct (recordLoop_stops w k fuel 0
                (replicate (Z.to_nat framesPerChunk) 0%Z) [] st)
      as (data & st' & H & Hst' & Hlen); try assumption;
      try apply length_replicate.
    + intros j Hj. apply Hquiet. lia.
    + intros j Hj. apply Hreads. lia.
    + now exists data, st'.
  - intros fuel st. apply recordLoop_polls.
Qed.


End MoreClaims.

Section TaskFacts.
Import Tasks.
Variable w : World.

Lemma exec_flag a s s' :
  exec w a s = Some s' ->
  (flag s' = flag s /\ a <> EnterStores /\ a <> SignalStores) \/
  (flag s' = 1%Z /\ (a = EnterStores \/ a = SignalStores)).
Proof.
  destruct a; cbn [exec].
  - destruct (enter s); intros [= <-]; left; repeat split; discriminate.
  - destruct (enter s); intros [= <-]; right; auto.
  - destruct (signal s); intros [= <-]; left; repeat split; discriminate.
  - destruct (signal s); intros [= <-]; right; auto.
  - destruct (loop s); [| |discriminate..]; intros [= <-].
    + left; repeat split; discriminate.
    + left. destruct (status (w_Read w (reads s)));
        repeat split; discriminate.
Qed.

Lemma execs_flag sched s s' :
  execs w sched s = Some s' -> flag s = 1%Z -> flag s' = 1%Z.
Proof.
  revert s. induction sched as [|a sched IH]; intros s; cbn [execs].
  - now intros [= <-].
  - destruct (exec w a s) as [s1|] eqn:E; [|discriminate].
    intros H Hs. apply (IH s1 H).
    apply exec_flag in E as [(-> & _)|(-> & _)]; auto.
Qed.

Lemma execs_app sched1 sched2 s :
  execs w (sched1 ++ sched2) s =
  match execs w sched1 s with
  | Some s1 => execs w sched2 s1
  | None => None
  end.
Proof.
  revert s. induction sched1 as [|a sched1 IH]; intros s; cbn [execs app];
    [reflexivity|].
  destruct (exec w a s); [apply IH | reflexivity].
Qed.

Lemma reachable_flag s : reachable w s -> flag s = 0%Z \/ flag s = 1%Z.
Proof.
  intros [sched H]. revert s H.
  induction sched as [|a sched IH] using rev_ind; intros s; cbn [execs].
  - intros [= <-]. now left.
  - rewrite execs_app. destruct (execs w sched init) as [s1|] eqn:E;
      [|discriminate].
    cbn [execs]. destruct (exec w a s1) as [s2|] eqn:E2; [|discriminate].
    intros [= <-]. apply exec_flag in E2 as [(-> & _)|(-> & _)]; auto.
Qed.

(** C8.  The flag starts at 0.  In the system of the loop and the two
    watchers, under every schedule, an action leaves the flag as it was or
    makes it 1; the only actions that write it are the two stores, and
    each makes it 1 whatever it was; so the flag of a reachable state is
    0 or 1, and once 1 it is 1 in every state that follows. *)
Theorem stop_flag_monotone :
  flag init = 0%Z /\
  (forall a s s',
      exec w a s = Some s' -> flag s' = flag s \/ flag s' = 1%Z) /\
  (forall a s s',
      exec w a s = Some s' -> flag s' <> flag s ->
      a = EnterStores \/ a = SignalStores) /\
  (forall s s', exec w EnterStores s = Some s' -> flag s' = 1%Z) /\
  (forall s s', exec w SignalStores s = Some s' -> flag s' = 1%Z) /\
  (forall s, reachable w s -> flag s = 0%Z \/ flag s = 1%Z) /\
  (forall sched s s',
      execs w sched s = Some s' -> flag s = 1%Z -> flag s' = 1%Z).
Proof.
  split; [reflexivity|]. split; [|split; [|split; [|split; [|split]]]].
  - intros a s s' H. apply exec_flag in H as [(-> & _)|(-> & _)]; auto.
  - intros a s s' H Hne. apply exec_flag in H as [(Heq & _)|(_ & Ha)];
      [contradiction | assumption].
  - intros s s' H. apply exec_flag in H as [(_ & Hne & _)|(-> & _)];
      [contradiction | reflexivity].
  - intros s s' H. apply exec_flag in H as [(_ & _ & Hne)|(-> & _)];
      [contradiction | reflexivity].
  - apply reachable_flag.
  - apply execs_flag.
Qed.

End TaskFacts.

Section Refinement.
Import Tasks.
Variable w : World.

Lemma standing_S at_ i :
  standing at_ (S i) =
  if bool_decide (at_ = Some i) then Returned else standing at_ i.
Proof.
  unfold standing. destruct at_ as [n|]; [|now rewrite bool_decide_eq_false_2].
  case_bool_decide as H.
  - injection H as ->. now rewrite (proj2 (Nat.ltb_lt i (S i))) by lia.
  - assert (n <> i) by congruence.
    destruct (Nat.ltb_spec n (S i)), (Nat.ltb_spec n i); try reflexivity; lia.
Qed.

Lemma standing_now at_ i : at_ = Some i -> standing at_ i = Blocked.
Proof. intros ->. unfold standing. now rewrite Nat.ltb_irrefl. Qed.

(** The watchers' stores before the [i]-th test, as actions. *)
Lemma watchers_actions i in_ rec st s :
  atTest w i in_ rec st s ->
  exists s1,
    execs w (wakes (w_enter w) i EnterWakes EnterStores ++
             wakes (w_signal w) i SignalWakes SignalStores) s = Some s1 /\
    flag s1 = stopRecording (afterWatchers w i st) /\
    enter s1 = standing (w_enter w) (S i) /\
    signal s1 = standing (w_signal w) (S i) /\
    loop s1 = Testing /\
    chunk s1 = in_ /\ recorded s1 = rec /\ reads s1 = i.
Proof.
  intros (Hf & He & Hs & Hl & Hc & Hr & Hn).
  rewrite !standing_S. unfold wakes, afterWatchers, fires.
  destruct (bool_decide (w_enter w = Some i)) eqn:Ee;
    destruct (bool_decide (w_signal w = Some i)) eqn:Es;
    cbn [app execs exec orb].
  - apply bool_decide_eq_true in Ee, Es.
    rewrite He, (standing_now _ _ Ee). cbn [signal].
    rewrite Hs, (standing_now _ _ Es).
    eexists. split; [reflexivity|]. cbn. auto 10.
  - apply bool_decide_eq_true in Ee.
    rewrite He, (standing_now _ _ Ee).
    eexists. split; [reflexivity|]. cbn. auto 10.
  - apply bool_decide_eq_true in Es.
    rewrite Hs, (standing_now _ _ Es).
    eexists. split; [reflexivity|]. cbn. auto 10.
  - eexists. split; [reflexivity|]. auto 10.
Qed.

(** Every return of [recordLoop] is the end of a schedule of the task
    system: the loop of [run], under the interleavings that [w_enter] and
    [w_signal] describe, is the loop of the task system under a schedule. *)
Lemma recordLoop_schedule fuel i in_ rec st s :
  atTest w i in_ rec st s ->
  match recordLoop w fuel i in_ rec st with
  | (Some (Ok recordedData), st') =>
      exists sched s',
        execs w sched s = Some s' /\ loop s' = Stopped /\
        recorded s' = recordedData /\ flag s' = stopRecording st'
  | (Some (Err e), _) =>
      exists sched s' err,
        execs w sched s = Some s' /\ loop s' = Failed err /\
        e = "error reading from audio stream: " +:+ err
  | (None, _) => True
  end.
Proof.
  revert i in_ rec st s.
  induction fuel as [|fuel IH]; intros i in_ rec st s Hat; [exact I|].
  rewrite recordLoop_S. cbv zeta.
  destruct (watchers_actions i in_ rec st s Hat)
    as (s1 & Hs1 & Hf & He & Hs & Hl & Hc & Hr & Hn).
  set (pre := wakes (w_enter w) i EnterWakes EnterStores ++
              wakes (w_signal w) i SignalWakes SignalStores) in *.
  destruct (Z.eqb_spec (stopRecording (afterWatchers w i st)) 0) as [E|E].
  - (* the test passes, the read follows *)
    set (in' := fillBuffer in_ (delivered (w_Read w i))).
    set (st2 := set_trace (fun t => t ++ [EvStreamRead]) (afterWatchers w i st)).
    destruct (status (w_Read w i)) eqn:Est.
    1,2: assert (Hat' : exists s2,
               execs w (pre ++ [LoopSteps; LoopSteps]) s = Some s2 /\
               atTest w (S i) in' (rec ++ in') st2 s2);
      [ rewrite execs_app, Hs1; cbn [execs exec]; rewrite Hl; cbn [flag loop reads chunk];
        rewrite Hf, E; cbn [Z.eqb loop reads chunk recorded]; rewrite Hn, Est, Hc, Hr;
        eexists; split; [reflexivity|]; unfold atTest; cbn; auto 10
      | destruct Hat' as (s2 & Hs2 & Hat2);
        specialize (IH (S i) in' (rec ++ in') st2 s2 Hat2);
        destruct (recordLoop w fuel (S i) in' (rec ++ in') st2) as [[[data|e]|] st'];
        [ destruct IH as (sched & s' & Hx & Hrest);
          exists ((pre ++ [LoopSteps; LoopSteps]) ++ sched), s';
          split; [now rewrite execs_app, Hs2 | assumption]
        | destruct IH as (sched & s' & err & Hx & Hrest);
          exists ((pre ++ [LoopSteps; LoopSteps]) ++ sched), s', err;
          split; [now rewrite execs_app, Hs2 | assumption]
        | exact I ] ].
    exists (pre ++ [LoopSteps; LoopSteps]). eexists. exists e.
    rewrite execs_app, Hs1. cbn [execs exec]. rewrite Hl. cbn [flag loop reads chunk].
    rewrite Hf, E. cbn [Z.eqb loop reads]. rewrite Hn, Est.
    split; [reflexivity|]. split; reflexivity.
  - (* the test reads the flag as set *)
    exists (pre ++ [LoopSteps]). eexists.
    rewrite execs_app, Hs1. cbn [execs exec]. rewrite Hl. cbn [flag].
    rewrite Hf. destruct (Z.eqb_spec (stopRecording (afterWatchers w i st)) 0);
      [contradiction|].
    split; [reflexivity|]. cbn. auto.
Qed.

Lemma atTest_init st :
  stopRecording st = 0%Z ->
  atTest w 0 (replicate (Z.to_nat framesPerChunk) 0%Z) [] st init.
Proof.
  intros Hst. unfold atTest, standing. cbn.
  rewrite Hst. destruct (w_enter w), (w_signal w); auto 10.
Qed.

End Refinement.

(* ===================================================================== *)
(** * The theorems on the sample executions                               *)
(* ===================================================================== *)

Example demo_ok :
  (main Demo.parse Demo.ok 4).1 = Some 0%Z /\
  stdout (main Demo.parse Demo.ok 4).2 =
    [String "010" "ls -la" +:+ String "010" ""] /\
  files (main Demo.parse Demo.ok 4).2 !! tempFileName = None /\
  (main Demo.parse Demo.ok 2).1 = None.
Proof. vm_compute. auto. Qed.


Lemma no_choices_fatal_witness :
  (main Demo.parse Demo.noChoices 4).1 = Some 1%Z /\
  stdout (main Demo.parse Demo.noChoices 4).2 =
    ["An error occurred: error generating command: no choices returned from chat completion" +:+ String "010" ""].
Proof.
  pose proof (no_choices_fatal Demo.parse Demo.noChoices 4
                (chatRequest "sk-demo" "list files")
                {| StatusCode := 200; Body := Demo.noChoicesBody |}
                (Json.Object [("choices", Json.Array [])])
                {| Choices := [] |}) as H.
  destruct H as (_ & H1 & msg & H2 & _).
  - apply in_http. vm_compute. right; left; reflexivity.
  - reflexivity.
  - reflexivity.
  - reflexivity.
  - reflexivity.
  - reflexivity.
  - reflexivity.
  - split; [exact H1 | vm_compute; reflexivity].
Defined.

Lemma missing_text_is_empty_witness :
  (transcribeAudio Demo.parse Demo.noText "sk-demo" tempFileName
     (set_files (insert tempFileName [82; 73; 70; 70]%Z) (start Demo.noText))).1 =
  Some (Ok "") /\
  exists apiKey,
    In (EvHTTP (chatRequest apiKey ""))
      (trace (main Demo.parse Demo.noText 4).2).
Proof.
  pose proof (missing_text_is_empty Demo.parse Demo.noText
                {| StatusCode := 200; Body := Demo.noTextBody |}
                [("language", Json.Str "en")]) as H.
  destruct H as [H1 H2]; [reflexivity..|].
  split.
  - apply (H1 "sk-demo" tempFileName [82; 73; 70; 70]%Z); reflexivity.
  - apply (H2 4%nat
             (transcriptionRequest Demo.noText "sk-demo" tempFileName
                (Wav.encode sampleRate 16 channels 1 Demo.recording))).
    + apply in_http. vm_compute. left; reflexivity.
    + reflexivity.
    + reflexivity.
Defined.

Lemma non200_is_error_witness :
  (main Demo.parse Demo.serverError 4).1 = Some 1%Z /\
  files (main Demo.parse Demo.serverError 4).2 !! tempFileName = None /\
  (exists before,
      http (trace (main Demo.parse Demo.serverError 4).2) =
      before ++
      [transcriptionRequest Demo.serverError "sk-demo" tempFileName
         (Wav.encode sampleRate 16 channels 1 Demo.recording)]) /\
  exists msg,
    stdout (main Demo.parse Demo.serverError 4).2 = [msg] /\
    Strings.Contains msg "500" = true /\
    Strings.Contains msg "upstream down" = true.
Proof.
  pose proof (non200_is_error Demo.parse Demo.serverError
                {| StatusCode := 500; Body := "upstream down" |}) as H.
  destruct H as (_ & _ & _ & H); [discriminate|].
  apply (H 4%nat
           (transcriptionRequest Demo.serverError "sk-demo" tempFileName
              (Wav.encode sampleRate 16 channels 1 Demo.recording))).
  - apply in_http. vm_compute. left; reflexivity.
  - reflexivity.
Defined.

Lemma missing_key_fails_before_audio_witness :
  (main Demo.parse Demo.noKey 4).1 = Some 1%Z /\
  trace (main Demo.parse Demo.noKey 4).2 =
    [EvSetJackErrorHandler; EvSetAlsaErrorHandler].
Proof.
  pose proof (missing_key_fails_before_audio Demo.parse Demo.noKey 4) as H.
  destruct H as (H1 & _ & H2 & _).
  - reflexivity.
  - intros kvs [= <-]. vm_compute. intros H. inversion H as [|? ? ? H']; inversion H'.
  - split; [exact H1 | exact H2].
Defined.



Lemma recordLoop_exit_witness :
  match recordLoop Demo.ok 4 0 (replicate (Z.to_nat framesPerChunk) 0%Z) []
          (start Demo.ok) with
  | (Some (Ok recordedData), st') =>
      stopRecording st' <> 0%Z /\ exists k, length recordedData = (1024 * k)%nat
  | _ => False
  end.
Proof.
  pose proof (proj1 (recordLoop_exit Demo.ok) 4%nat (start Demo.ok)) as H.
  destruct (recordLoop Demo.ok 4 0 (replicate (Z.to_nat framesPerChunk) 0%Z) []
              (start Demo.ok)) as [[[data|e]|] st'] eqn:E.
  - exact H.
  - vm_compute in E. discriminate E.
  - vm_compute in E. discriminate E.
Defined.


Lemma stop_flag_monotone_witness :
  match
    Tasks.execs Demo.ok
      [Tasks.LoopSteps; Tasks.SignalWakes; Tasks.LoopSteps;
       Tasks.SignalStores; Tasks.EnterWakes; Tasks.LoopSteps;
       Tasks.EnterStores] Tasks.init
  with
  | Some s => Tasks.flag s = 1%Z /\ Tasks.loop s = Tasks.Stopped
  | None => False
  end.
Proof.
  destruct (stop_flag_monotone Demo.ok) as (_ & _ & _ & _ & _ & Hreach & _).
  destruct (Tasks.execs Demo.ok _ Tasks.init) as [s|] eqn:E.
  - destruct (Hreach s (ex_intro _ _ E)) as [H0|H1].
    + vm_compute in E. injection E as <-. discriminate H0.
    + split; [exact H1|]. vm_compute in E. injection E as <-. reflexivity.
  - vm_compute in E. discriminate E.
Defined.

(* ===================================================================== *)
(** * Every path of [run]                                                 *)
(* ===================================================================== *)

Section PathFacts.
Variable parseJSON : string -> Result Json.Value.
Variable w : World.

Lemma recordLoop_outcome fuel i in_ rec st :
  recordLoop w fuel i in_ rec st =
  let '(r, (evs, fl)) := loopOutcome w fuel i in_ rec (stopRecording st) in
  (r, set_stopRecording fl (add_trace evs st)).
Proof.
  revert i in_ rec st. induction fuel as [|fuel IH]; intros i in_ rec st.
  - cbn. unfold running, set_stopRecording, add_trace, set_trace. cbn.
    rewrite app_nil_r. now destruct st.
  - rewrite recordLoop_S. cbn [loopOutcome]. cbv zeta.
    unfold afterWatchers.
    assert (E : stopRecording (if fires w i then set_stopRecording 1 st else st)
                = if fires w i then 1%Z else stopRecording st)
      by now destruct (fires w i).
    rewrite E. clear E.
    destruct ((if fires w i then 1%Z else stopRecording st) =? 0)%Z eqn:E0.
    + assert (Hf : fires w i = false).
      { destruct (fires w i); [discriminate E0 | reflexivity]. }
      rewrite Hf in *. apply Z.eqb_eq in E0.
      destruct (status (w_Read w i)) eqn:Es.
      1,2: rewrite IH; cbn [stopRecording set_trace]; rewrite E0;
        destruct (loopOutcome w fuel (S i) _ _ 0) as [r [evs fl]];
        f_equal; unfold set_stopRecording, add_trace, set_trace; cbn;
        now rewrite <- app_assoc.
      f_equal. unfold set_stopRecording, add_trace, set_trace. cbn.
      rewrite <- app_assoc, E0. cbn. rewrite <- E0. now destruct st.
    + f_equal. unfold set_stopRecording, add_trace, set_trace. cbn.
      rewrite app_nil_r.
      destruct (fires w i); cbn; [reflexivity|]. now destruct st.
Qed.

End PathFacts.

Section RunPaths.
Variable parseJSON : string -> Result Json.Value.
Variable w : World.

Ltac tidy path :=
  intros [= <- <-]; cbn [trace stdout files environ];
  rewrite ?insert_insert_eq, ?delete_insert_eq;
  eexists _, _; (split; [|split; [|split]]);
  [ eapply path; eassumption
  | unfold upload, setup, release; rewrite <- ?app_assoc; cbn [app];
    rewrite ?app_nil_r; reflexivity
  | rewrite ?app_nil_r; reflexivity
  | reflexivity ].

Lemma run_path fuel st o st' :
  run parseJSON w fuel st = (o, st') ->
  exists tr out,
    Path parseJSON w fuel (environ st) (files st) o tr (files st') out /\
    trace st' = trace st ++ tr /\
    stdout st' = stdout st ++ out /\
    environ st' = loadEnv w (environ st).
Proof.
  unfold run. exec.
  fold (apiKeyOf w (environ st)).
  destruct (String.eqb_spec (apiKeyOf w (environ st)) "") as [Ekey|Ekey].
  { tidy path_no_key. }
  destruct (w_Initialize w) as [e|] eqn:Einit; exec.
  { tidy path_initialize. }
  destruct (w_OpenDefaultStream w) as [e|] eqn:Eopen; exec.
  { tidy path_open. }
  destruct (w_Start w) as [e|] eqn:Estart; exec.
  { tidy path_start. }
  assert (Hs : streaming w (environ st)) by (repeat split; assumption).
  rewrite recordLoop_outcome. cbn [stopRecording]. unfold add_trace. exec.
  destruct (loopOutcome w fuel 0 _ [] 0) as [[[data|e]|] [evs fl]] eqn:EL; exec.
  2:{ tidy path_read. }
  2:{ tidy path_polling. }
  assert (Hc : captured w fuel (environ st) data evs) by (split; eauto).
  destruct (w_Stop w) as [e|] eqn:Estop; exec.
  { tidy path_stop. }
  unfold writeWavFile. rewrite int16ToIntSlice_id. exec.
  destruct (w_Create w) as [e|] eqn:Ecreate; exec.
  { tidy path_create. }
  destruct (w_Write w) as [[n e]|] eqn:Ewrite; exec.
  { tidy path_write. }
  destruct (w_Close w) as [e|] eqn:Eclose; exec.
  { tidy path_close. }
  assert (Hw : saved w fuel (environ st) data evs) by (unfold saved; auto 10).
  rewrite lookup_insert_eq. cbn [default]. rewrite !insert_insert_eq.
  fold (Wav.encode sampleRate 16 channels 1 data). fold (wavOf data).
  rewrite transcribeAudio_eq. unfold add_trace. exec.
  destruct (w_Open w) as [e|] eqn:Eos; exec.
  { tidy path_os_open. }
  rewrite lookup_insert_eq. exec.
  destruct (transcriptionResult parseJSON _) as [text|e] eqn:ET; exec.
  2:{ tidy path_transcribe. }
  rewrite generateBashCommand_eq. unfold add_trace. exec.
  destruct (chatResult parseJSON _) as [cmd|e] eqn:EG; exec.
  - tidy path_done.
  - tidy path_generate.
Qed.

End RunPaths.

Section EnvFacts.
Variable w : World.

Lemma foldl_lookup_Some (kvs : list (string * string))
    (env : gmap string string) k v :
  env !! k = Some v ->
  foldl (fun env kv =>
           match env !! kv.1 with
           | Some _ => env
           | None => <[kv.1 := kv.2]> env
           end) env kvs !! k = Some v.
Proof.
  revert env. induction kvs as [|[k' v'] kvs IH]; intros env Henv;
    cbn [foldl fst snd]; [assumption|].
  apply IH. destruct (env !! k') eqn:E; [assumption|].
  rewrite lookup_insert_ne; [assumption|]. intros ->. congruence.
Qed.

Lemma foldl_lookup_fresh (kvs : list (string * string))
    (env : gmap string string) k v :
  env !! k = None -> NoDup kvs.*1 -> In (k, v) kvs ->
  foldl (fun env kv =>
           match env !! kv.1 with
           | Some _ => env
           | None => <[kv.1 := kv.2]> env
           end) env kvs !! k = Some v.
Proof.
  revert env. induction kvs as [|[k' v'] kvs IH]; intros env Henv Hnd Hin;
    [destruct Hin|].
  cbn [fmap list_fmap fst] in Hnd. apply NoDup_cons in Hnd as [Hk' Hnd].
  cbn [foldl fst snd]. destruct Hin as [[= -> ->]|Hin].
  - rewrite Henv. apply foldl_lookup_Some. apply lookup_insert_eq.
  - assert (k' <> k).
    { intros ->. apply Hk'. apply list_elem_of_fmap. exists (k, v).
      split; [reflexivity|]. now apply list_elem_of_In. }
    apply IH; [|assumption..].
    destruct (env !! k'); [assumption|]. now rewrite lookup_insert_ne.
Qed.

(** [godotenv.Load] leaves a variable of the environment as it is. *)
Lemma loadEnv_Some (env : gmap string string) k v :
  env !! k = Some v -> loadEnv w env !! k = Some v.
Proof.
  intros H. unfold loadEnv. destruct (w_dotenv w); [|assumption].
  now apply foldl_lookup_Some.
Qed.

Lemma apiKeyOf_keyFrom key : keyFrom w key -> apiKeyOf w (initEnv w) = key.
Proof.
  unfold apiKeyOf, initEnv.
  intros [H|(H & kvs & Hd & Hnd & Hin)].
  - rewrite (loadEnv_Some _ _ key); [reflexivity|].
    rewrite lookup_insert_ne; [assumption | discriminate].
  - unfold loadEnv. rewrite Hd.
    rewrite (foldl_lookup_fresh kvs _ _ key); [reflexivity| |assumption..].
    rewrite lookup_insert_ne; [assumption | discriminate].
Qed.

End EnvFacts.

Section OutcomeFacts.
Variable w : World.

Lemma loopOutcome_events fuel i in_ rec fl0 r evs fl :
  loopOutcome w fuel i in_ rec fl0 = (r, (evs, fl)) -> Forall loopEvent evs.
Proof.
  revert i in_ rec fl0 r evs fl.
  induction fuel as [|fuel IH]; intros i in_ rec fl0 r evs fl;
    cbn [loopOutcome]; cbv zeta.
  - intros [= <- <- <-]. constructor.
  - destruct ((if fires w i then 1 else fl0) =? 0)%Z.
    + destruct (status (w_Read w i)).
      1,2: destruct (loopOutcome w fuel _ _ _ _) as [r' [evs' fl']] eqn:E;
        intros [= <- <- <-]; constructor; [now left | eapply IH; eassumption].
      intros [= <- <- <-]. constructor; [now left|].
      constructor; [now right | constructor].
    + intros [= <- <- <-]. constructor.
Qed.

(** The loop that stops at the [k]-th test from here. *)
Lemma loopOutcome_stops k fuel i in_ rec :
  (forall j, (i <= j < i + k)%nat ->
     fires w j = false /\ failed (status (w_Read w j)) = false) ->
  fires w (i + k) = true -> (k < fuel)%nat ->
  loopOutcome w fuel i in_ rec 0 =
  (Some (Ok (rec ++ heard w i k in_)), (replicate k EvStreamRead, 1%Z)).
Proof.
  revert fuel i in_ rec.
  induction k as [|k IH]; intros fuel i in_ rec Hquiet Hfire Hfuel;
    (destruct fuel as [|fuel]; [lia|]); cbn [loopOutcome heard]; cbv zeta.
  - rewrite Nat.add_0_r in Hfire. rewrite Hfire. cbn. now rewrite app_nil_r.
  - destruct (Hquiet i ltac:(lia)) as [Hf Hr]. rewrite Hf. cbn [Z.eqb].
    rewrite IH; [| |now replace (S i + k)%nat with (i + S k)%nat by lia|lia].
    + rewrite <- app_assoc. cbn [replicate].
      destruct (status (w_Read w i)); [reflexivity..|discriminate].
    + intros j Hj. apply Hquiet. lia.
Qed.

(** The loop whose [k]-th read from here fails. *)
Lemma loopOutcome_fails k fuel i in_ rec err :
  (forall j, (i <= j < i + k)%nat ->
     fires w j = false /\ failed (status (w_Read w j)) = false) ->
  fires w (i + k) = false -> status (w_Read w (i + k)) = ReadFailed err ->
  (k < fuel)%nat ->
  loopOutcome w fuel i in_ rec 0 =
  (Some (Err ("error reading from audio stream: " +:+ err)),
   (replicate (S k) EvStreamRead ++ [EvSpinnerStop], 0%Z)).
Proof.
  revert fuel i in_ rec.
  induction k as [|k IH]; intros fuel i in_ rec Hquiet Hfire Hread Hfuel;
    (destruct fuel as [|fuel]; [lia|]); cbn [loopOutcome]; cbv zeta.
  - rewrite Nat.add_0_r in Hfire, Hread. rewrite Hfire, Hread. reflexivity.
  - destruct (Hquiet i ltac:(lia)) as [Hf Hr]. rewrite Hf. cbn [Z.eqb].
    rewrite IH;
      [| |now replace (S i + k)%nat with (i + S k)%nat by lia
       |now replace (S i + k)%nat with (i + S k)%nat by lia|lia].
    + destruct (status (w_Read w i)); [reflexivity..|discriminate].
    + intros j Hj. apply Hquiet. lia.
Qed.

(** With whole chunks delivered, what the loop appends is what the device
    delivered. *)
Lemma heard_whole i k in_ :
  length in_ = 1024%nat ->
  (forall j, (i <= j < i + k)%nat ->
     length (delivered (w_Read w j)) = 1024%nat) ->
  heard w i k in_ = concat (map (fun j => delivered (w_Read w j)) (seq i k)).
Proof.
  revert i in_. induction k as [|k IH]; intros i in_ Hin Hlen; [reflexivity|].
  cbn [heard seq map concat]. cbv zeta.
  assert (E : fillBuffer in_ (delivered (w_Read w i)) = delivered (w_Read w i)).
  { unfold fillBuffer. rewrite Hin, (Hlen i) by lia.
    rewrite skipn_all2 by lia. rewrite app_nil_r.
    apply firstn_all2. rewrite (Hlen i) by lia. lia. }
  rewrite E. f_equal. apply IH; [apply Hlen; lia|].
  intros j Hj. apply Hlen. lia.
Qed.

End OutcomeFacts.

Section MainPaths.
Variable parseJSON : string -> Result Json.Value.
Variable w : World.

(** [main] follows one of the paths of [run]. *)
Lemma main_path fuel :
  exists o tr out,
    Path parseJSON w fuel (initEnv w) (w_files w) o tr
      (files (main parseJSON w fuel).2) out /\
    trace (main parseJSON w fuel).2 =
      [EvSetJackErrorHandler; EvSetAlsaErrorHandler] ++ tr /\
    stdout (main parseJSON w fuel).2 = out ++ reported o /\
    environ (main parseJSON w fuel).2 = loadEnv w (initEnv w) /\
    (main parseJSON w fuel).1 = exitStatus o.
Proof.
  rewrite main_eq.
  destruct (run parseJSON w fuel _) as [o st'] eqn:ER.
  apply run_path in ER as (tr & out & HP & Ht & Ho & He).
  cbn [environ files trace stdout add_trace set_trace set_environ start app] in *.
  exists o, tr, out.
  destruct o as [[[]|e]|]; cbn [fst snd files trace stdout environ set_stdout
                                  exitStatus reported];
    rewrite ?app_nil_r, ?Ho; auto 10.
Qed.

End MainPaths.

(** Taking a path apart: the facts of the world in it, as hypotheses. *)
Ltac world_facts :=
  repeat match goal with
         | H : saved _ _ _ _ _ |- _ => destruct H as (? & ? & ? & ? & ?)
         | H : captured _ _ _ _ _ |- _ => destruct H as (? & ? & ?)
         | H : streaming _ _ |- _ => destruct H as (? & ? & ? & ?)
         end.

Lemma loopEvent_in evs e :
  Forall loopEvent evs -> In e evs -> e = EvStreamRead \/ e = EvSpinnerStop.
Proof. intros HF Hin. exact (proj1 (List.Forall_forall _ _) HF e Hin). Qed.

(** Membership in a trace written out as a list: the cases that remain
    once the events that differ are set aside. *)
Ltac members H :=
  unfold upload, setup, release in H;
  rewrite ?in_app_iff in H; cbn [In] in H;
  repeat match type of H with
         | _ \/ _ => destruct H as [H|H]
         end;
  try discriminate H; try contradiction H;
  try match goal with
      | HF : Forall loopEvent ?evs |- _ =>
          match type of H with
          | In _ evs =>
              apply (loopEvent_in _ _ HF) in H; destruct H; discriminate
          end
      end.

(** An event is in a trace written out as a list. *)
Ltac member :=
  unfold upload, setup, release; rewrite ?in_app_iff; cbn [In]; tauto.

(** A list ends a trace written out as a list. *)
Ltac ends :=
  unfold upload, setup, release;
  repeat first [reflexivity | apply suffix_app_r | apply suffix_cons_r].

(** What the loop added, in the path. *)
Ltac loop_events :=
  try match goal with
      | H : loopOutcome _ _ _ _ _ _ = _ |- _ =>
          pose proof (loopOutcome_events _ _ _ _ _ _ _ _ _ H)
      end.

(* ===================================================================== *)
(** * Further properties of the program                                   *)
(* ===================================================================== *)

Section Slices.

(** X1.  [int16ToIntSlice] returns a slice as long as its argument, and
    holding at each index the number the argument holds there. *)
Theorem int16ToIntSlice_same (in_ : list Z) :
  length (int16ToIntSlice in_) = length in_ /\
  forall i, int16ToIntSlice in_ !! i = int <$> in_ !! i.
Proof.
  rewrite int16ToIntSlice_id. split; [reflexivity|].
  intros i. unfold int. now destruct (in_ !! i).
Qed.

End Slices.

Section Recording.
Variable w : World.

(** X2.  When each read before the stop delivers a whole chunk of 1024
    samples, what the loop returns is what the device delivered, read after
    read, and nothing else. *)
Theorem recording_is_reads (k fuel : nat) (st : State) :
  stopRecording st = 0%Z ->
  stopsAt w k ->
  (forall j, (j < k)%nat -> length (delivered (w_Read w j)) = 1024%nat) ->
  (k < fuel)%nat ->
  (recordLoop w fuel 0 (replicate (Z.to_nat framesPerChunk) 0%Z) [] st).1 =
  Some (Ok (concat (map (fun j => delivered (w_Read w j)) (seq 0 k)))).
Proof.
  intros Hst [Hquiet Hfire] Hlen Hfuel.
  rewrite recordLoop_outcome, Hst.
  rewrite (loopOutcome_stops w k); [| |assumption..].
  - cbn [fst app]. rewrite heard_whole; [reflexivity|reflexivity|].
    intros j Hj. apply Hlen. lia.
  - intros j Hj. apply Hquiet. lia.
Qed.

End Recording.

Section Failures.
Variable parseJSON : string -> Result Json.Value.
Variable w : World.

Lemma outcome_Ok_inv {A : Type} (a a' : A) (evs evs' : list Event)
    (fl fl' : Z) :
  (Some (Ok a), (evs, fl)) = (Some (Ok a'), (evs', fl')) ->
  a' = a /\ evs' = evs /\ fl' = fl.
Proof. intros [= -> -> ->]. auto. Qed.

Lemma outcome_Err_inv {A : Type} (e e' : error) (evs evs' : list Event)
    (fl fl' : Z) :
  (Some (@Err A e), (evs, fl)) = (Some (Err e'), (evs', fl')) ->
  e' = e /\ evs' = evs /\ fl' = fl.
Proof. intros [= -> -> ->]. auto. Qed.

(** The path taken, given the key and what the loop does. *)
Ltac taken Hkey HL :=
  world_facts; rewrite ?Hkey in *; try congruence;
  try match goal with
      | H : loopOutcome _ _ _ _ _ _ = (_, (?evs, _)) |- _ =>
          is_var evs; rewrite HL in H;
          first [ discriminate H
                | apply outcome_Ok_inv in H as (-> & -> & ->)
                | apply outcome_Err_inv in H as (-> & -> & ->) ]
      end;
  repeat match goal with
         | H1 : ?x = _, H2 : ?x = _ |- _ =>
             rewrite H1 in H2;
             first [discriminate H2 | injection H2; clear H2; intros; subst]
         end;
  try congruence.


Lemma stopsAt_outcome k fuel :
  stopsAt w k -> (k < fuel)%nat ->
  loopOutcome w fuel 0 (replicate (Z.to_nat framesPerChunk) 0%Z) [] 0 =
  (Some (Ok (heard w 0 k (replicate (Z.to_nat framesPerChunk) 0%Z))),
   (replicate k EvStreamRead, 1%Z)).
Proof.
  intros [Hquiet Hfire] Hfuel.
  rewrite (loopOutcome_stops w k); [reflexivity| |assumption..].
  intros j Hj. apply Hquiet. lia.
Qed.

(** X3.  With the key there, a failure of [portaudio.Initialize], of
    [OpenDefaultStream] or of [stream.Start] ends the process with status 1
    and the message of its stage; what was acquired before is released,
    last first, and nothing else is called: no [Terminate] after a failed
    [Initialize], no [Close] after a failed open, no spinner, no read. *)
Theorem setup_failure_reported (fuel : nat) (key : string) :
  keyFrom w key -> key <> "" ->
  (forall e, w_Initialize w = Some e ->
     (main parseJSON w fuel).1 = Some 1%Z /\
     stdout (main parseJSON w fuel).2 =
       ["An error occurred: failed to initialize portaudio: " +:+ e +:+
        String "010" ""] /\
     trace (main parseJSON w fuel).2 =
       [EvSetJackErrorHandler; EvSetAlsaErrorHandler; EvInitialize]) /\
  (forall e, w_Initialize w = None -> w_OpenDefaultStream w = Some e ->
     (main parseJSON w fuel).1 = Some 1%Z /\
     stdout (main parseJSON w fuel).2 =
       ["An error occurred: failed to open audio stream: " +:+ e +:+
        String "010" ""] /\
     trace (main parseJSON w fuel).2 =
       [EvSetJackErrorHandler; EvSetAlsaErrorHandler; EvInitialize;
        EvOpenDefaultStream 1 0 44100 1024; EvTerminate]) /\
  (forall e, w_Initialize w = None -> w_OpenDefaultStream w = None ->
     w_Start w = Some e ->
     (main parseJSON w fuel).1 = Some 1%Z /\
     stdout (main parseJSON w fuel).2 =
       ["An error occurred: failed to start audio stream: " +:+ e +:+
        String "010" ""] /\
     trace (main parseJSON w fuel).2 =
       [EvSetJackErrorHandler; EvSetAlsaErrorHandler; EvInitialize;
        EvOpenDefaultStream 1 0 44100 1024; EvStreamStart; EvStreamClose;
        EvTerminate]).
Proof.
  intros Hkey Hne. apply apiKeyOf_keyFrom in Hkey.
  destruct (main_path parseJSON w fuel) as (o & tr & out & HP & Ht & Ho & _ & Hx).
  rewrite Ht, Ho, Hx. clear Ht Ho Hx.
  repeat split; intros;
    destruct HP; world_facts; try congruence; simplify_eq; reflexivity.
Qed.

(** X4.  When a read fails with an error other than end of stream before
    any store was seen, the process ends with status 1 and the message of
    the read; [stream.Stop] is not called, the spinner is stopped by the
    loop and again by the deferred call, the stream is closed and the
    library terminated; no file is created and no request sent. *)
Theorem read_error_aborts (fuel : nat) (key : string) (k : nat) (err : error) :
  ready w key ->
  (forall j, (j < k)%nat ->
     fires w j = false /\ failed (status (w_Read w j)) = false) ->
  fires w k = false -> status (w_Read w k) = ReadFailed err ->
  (k < fuel)%nat ->
  (main parseJSON w fuel).1 = Some 1%Z /\
  stdout (main parseJSON w fuel).2 =
    ["An error occurred: error reading from audio stream: " +:+ err +:+
     String "010" ""] /\
  trace (main parseJSON w fuel).2 =
    [EvSetJackErrorHandler; EvSetAlsaErrorHandler] ++ setup ++
    replicate (S k) EvStreamRead ++
    [EvSpinnerStop; EvSpinnerStop; EvStreamClose; EvTerminate] /\
  files (main parseJSON w fuel).2 = w_files w.
Proof.
  intros (Hkey & Hne & Hi & Hop & Hs) Hquiet Hfire Hread Hfuel.
  apply apiKeyOf_keyFrom in Hkey.
  assert (HL := loopOutcome_fails w k fuel 0
                  (replicate (Z.to_nat framesPerChunk) 0%Z) [] err).
  cbn [Nat.add] in HL.
  specialize (HL ltac:(intros j Hj; apply Hquiet; lia) Hfire Hread Hfuel).
  destruct (main_path parseJSON w fuel) as (o & tr & out & HP & Ht & Ho & _ & Hx).
  rewrite Ht, Ho, Hx. clear Ht Ho Hx.
  destruct HP; taken Hkey HL.
  repeat split; try reflexivity.
  unfold release. cbn [replicate app]. rewrite <- !app_assoc. reflexivity.
Qed.

(** X5.  When the recording ended and [stream.Stop] fails, the process ends
    with status 1 and the message of that stage, having created no file
    and sent no request; the spinner is stopped, the stream closed and the
    library terminated. *)
Theorem stop_failure_reported (fuel : nat) (key : string) (k : nat) (e : error) :
  ready w key -> stopsAt w k -> (k < fuel)%nat -> w_Stop w = Some e ->
  (main parseJSON w fuel).1 = Some 1%Z /\
  stdout (main parseJSON w fuel).2 =
    ["An error occurred: failed to stop audio stream: " +:+ e +:+
     String "010" ""] /\
  trace (main parseJSON w fuel).2 =
    [EvSetJackErrorHandler; EvSetAlsaErrorHandler] ++ setup ++
    replicate k EvStreamRead ++
    [EvStreamStop; EvSpinnerStop; EvStreamClose; EvTerminate] /\
  files (main parseJSON w fuel).2 = w_files w.
Proof.
  intros (Hkey & Hne & Hi & Hop & Hs) Hstops Hfuel Hstop.
  apply apiKeyOf_keyFrom in Hkey.
  pose proof (stopsAt_outcome k fuel Hstops Hfuel) as HL.
  destruct (main_path parseJSON w fuel) as (o & tr & out & HP & Ht & Ho & _ & Hx).
  rewrite Ht, Ho, Hx. clear Ht Ho Hx.
  destruct HP; taken Hkey HL.
  repeat split; reflexivity.
Qed.



End Failures.

Section Invariants.
Variable parseJSON : string -> Result Json.Value.
Variable w : World.

(** X8.  When the process exits, what it acquired is released, last
    acquired first: after the spinner started, the last three calls are
    the spinner's stop, [stream.Close] and [portaudio.Terminate]; after a
    successful open the last two are [Close] and [Terminate]; after a
    successful [Initialize] the last is [Terminate].  And nothing is
    released that was not acquired. *)
Theorem resources_released (fuel : nat) (c : Z) :
  (main parseJSON w fuel).1 = Some c ->
  let tr := trace (main parseJSON w fuel).2 in
  (In EvSpinnerStart tr ->
   exists t, tr = t ++ [EvSpinnerStop; EvStreamClose; EvTerminate]) /\
  (In (EvOpenDefaultStream 1 0 44100 1024) tr -> w_OpenDefaultStream w = None ->
   exists t, tr = t ++ [EvStreamClose; EvTerminate]) /\
  (In EvInitialize tr -> w_Initialize w = None ->
   exists t, tr = t ++ [EvTerminate]) /\
  (In EvTerminate tr -> In EvInitialize tr /\ w_Initialize w = None) /\
  (In EvStreamClose tr ->
   In (EvOpenDefaultStream 1 0 44100 1024) tr /\
   w_OpenDefaultStream w = None) /\
  (In EvSpinnerStop tr -> In EvSpinnerStart tr).
Proof.
  intros Hc tr. subst tr.
  destruct (main_path parseJSON w fuel) as (o & tr & out & HP & Ht & _ & _ & Hx).
  rewrite Ht. rewrite Hx in Hc. clear Ht Hx.
  destruct HP; try discriminate Hc; world_facts; loop_events;
    (split; [|split; [|split; [|split; [|split]]]]);
    intros Hin;
    first
      [ solve [intros; ends]
      | solve [split; [member | assumption]]
      | solve [member]
      | solve [intros; congruence]
      | solve [members Hin] ].
Qed.



(** X11.  Of its own (the frames of the spinner apart) an execution that
    ends has printed exactly once: with status 0 a command between two
    newlines, with status 1 the line that starts with
    "An error occurred: "; there is no other status.  An execution still
    recording has printed nothing. *)
Theorem exactly_one_message (fuel : nat) :
  match (main parseJSON w fuel).1 with
  | Some c =>
      (c = 0%Z /\
       exists cmd,
         stdout (main parseJSON w fuel).2 =
           [String "010" (Strings.TrimSpace cmd) +:+ String "010" ""]) \/
      (c = 1%Z /\
       exists e,
         stdout (main parseJSON w fuel).2 =
           ["An error occurred: " +:+ e +:+ String "010" ""])
  | None => stdout (main parseJSON w fuel).2 = []
  end.
Proof.
  destruct (main_path parseJSON w fuel) as (o & tr & out & HP & _ & Ho & _ & Hx).
  rewrite Hx, Ho. clear Hx Ho.
  destruct HP; cbn [exitStatus reported app]; eauto.
Qed.

(** X12.  However the execution goes, at its end [JACK_NO_START_SERVER] is
    1 in the environment, also when the environment or [.env] gave it
    another value; and every other variable the environment had keeps its
    value, whatever [.env] says. *)
Theorem jack_env_forced (fuel : nat) :
  environ (main parseJSON w fuel).2 !! "JACK_NO_START_SERVER" = Some "1" /\
  forall k v,
    k <> "JACK_NO_START_SERVER" -> w_environ w !! k = Some v ->
    environ (main parseJSON w fuel).2 !! k = Some v.
Proof.
  destruct (main_path parseJSON w fuel) as (o & tr & out & _ & _ & _ & He & _).
  rewrite He. unfold initEnv. split.
  - apply loadEnv_Some, lookup_insert_eq.
  - intros k v Hk Hv. apply loadEnv_Some.
    rewrite lookup_insert_ne by congruence. assumption.
Qed.

(** X13.  Every request the program sends is a POST to one of the two
    endpoints, with the content type of its body and with the header
    [Authorization: Bearer <key>], where the key is the value of
    [OPENAI_API_KEY] in the environment, or the one [.env] gives when the
    environment has none; the key is not empty; and no more than two
    requests are sent. *)
Theorem requests_authorized (fuel : nat) (key : string) :
  keyFrom w key ->
  (length (http (trace (main parseJSON w fuel).2)) <= 2)%nat /\
  forall req,
    In (EvHTTP req) (trace (main parseJSON w fuel).2) ->
    key <> "" /\
    Method req = "POST" /\
    Header req !! "Authorization" = Some ("Bearer " +:+ key) /\
    ((URL req = "https://api.openai.com/v1/audio/transcriptions" /\
      Header req !! "Content-Type" =
        Some ("multipart/form-data; boundary=" +:+ w_boundary w)) \/
     (URL req = "https://api.openai.com/v1/chat/completions" /\
      Header req !! "Content-Type" = Some "application/json")).
Proof.
  intros Hkey. apply apiKeyOf_keyFrom in Hkey.
  destruct (main_path parseJSON w fuel) as (o & tr & out & HP & Ht & _ & _ & _).
  rewrite Ht. clear Ht. split.
  - destruct HP; world_facts; loop_events;
      unfold upload, setup, release;
      rewrite ?http_app;
      repeat match goal with
             | H : Forall loopEvent _ |- _ => rewrite (http_loop _ H); clear H
             end;
      cbn [http app length]; lia.
  - intros req Hin.
    destruct HP; world_facts; loop_events; members Hin;
      injection Hin as <-; rewrite Hkey in *;
      (split; [assumption|]); (split; [reflexivity|]);
      (split; [cbn [Header transcriptionRequest chatRequest];
               rewrite lookup_insert_ne by discriminate;
               apply lookup_insert_eq|]);
      first [ left; split; [reflexivity | apply lookup_insert_eq]
            | right; split; [reflexivity | apply lookup_insert_eq] ].
Qed.

(** X14.  What is sent to the transcription endpoint is the recording: the
    body has the part [file], named [temp.wav], holding what the encoder
    wrote (one channel, 44100 Hz, 16 bits, PCM) for exactly the samples the
    loop returned, and the part [model] with the value [whisper-1]. *)
Theorem upload_is_recording (fuel : nat) (req : Request) :
  In (EvHTTP req) (trace (main parseJSON w fuel).2) ->
  URL req = transcriptionsURL ->
  exists recordedData,
    (recordLoop w fuel 0 (replicate (Z.to_nat framesPerChunk) 0%Z) []
       (start w)).1 = Some (Ok recordedData) /\
    ReqBody req =
      Multipart
        [FormFile "file" "temp.wav" (Wav.encode 44100 16 1 1 recordedData);
         FormField "model" "whisper-1"].
Proof.
  destruct (main_path parseJSON w fuel) as (o & tr & out & HP & Ht & _ & _ & _).
  rewrite Ht. clear Ht. intros Hin Hurl.
  rewrite recordLoop_outcome. cbn [stopRecording start].
  destruct HP; world_facts; loop_events; members Hin;
    injection Hin as <-; try discriminate Hurl;
    match goal with
    | H : loopOutcome _ _ _ _ _ _ = _ |- _ => rewrite H
    end;
    exists data; split; reflexivity.
Qed.

End Invariants.

Section Decoding.

Lemma intoStruct_app {T : Type} (setField : string -> Json.Value -> T -> Result T)
    pre post (cur : T) :
  Json.intoStruct setField (pre ++ post) cur =
  match Json.intoStruct setField pre cur with
  | Ok cur' => Json.intoStruct setField post cur'
  | Err e => Err e
  end.
Proof.
  revert cur. induction pre as [|[k v] pre IH]; intros cur; [reflexivity|].
  cbn [app Json.intoStruct]. destruct (setField k v cur); [apply IH | reflexivity].
Qed.

(** A member whose key names no field changes nothing. *)
Lemma intoStruct_ignore {T : Type} (name : string)
    (store : Json.Value -> T -> Result T) pre k v post (cur : T) :
  Json.matches name k = false ->
  Json.intoStruct
    (fun k x t => if Json.matches name k then store x t else Ok t)
    (pre ++ (k, v) :: post) cur =
  Json.intoStruct
    (fun k x t => if Json.matches name k then store x t else Ok t)
    (pre ++ post) cur.
Proof.
  intros Hk. rewrite !intoStruct_app.
  destruct (Json.intoStruct _ pre cur); [|reflexivity].
  cbn [Json.intoStruct]. now rewrite Hk.
Qed.

(** X15.  The response structs are partial: a member of a reply whose key
    names no field of the struct (exactly or under case folding) is passed
    over, at each of the four levels: the reply decodes as it does without
    that member. *)
Theorem unknown_members_ignored pre k v post :
  (Json.matches "text" k = false ->
   forall cur,
     unmarshalTranscription (Json.Object (pre ++ (k, v) :: post)) cur =
     unmarshalTranscription (Json.Object (pre ++ post)) cur) /\
  (Json.matches "choices" k = false ->
   forall cur,
     unmarshalChat (Json.Object (pre ++ (k, v) :: post)) cur =
     unmarshalChat (Json.Object (pre ++ post)) cur) /\
  (Json.matches "message" k = false ->
   forall cur,
     unmarshalChoice (Json.Object (pre ++ (k, v) :: post)) cur =
     unmarshalChoice (Json.Object (pre ++ post)) cur) /\
  (Json.matches "content" k = false ->
   forall cur,
     unmarshalMessage (Json.Object (pre ++ (k, v) :: post)) cur =
     unmarshalMessage (Json.Object (pre ++ post)) cur).
Proof.
  repeat split; intros Hk cur.
  - apply (intoStruct_ignore "text"
             (fun x t => match Json.intoString x (Text t) with
                         | Ok s => Ok {| Text := s |}
                         | Err e => Err e
                         end)); assumption.
  - apply (intoStruct_ignore "choices"
             (fun x (r : openAIChatResponse) =>
                match unmarshalChoices x with
                | Ok cs => Ok {| Choices := cs |}
                | Err e => Err e
                end)); assumption.
  - apply (intoStruct_ignore "message"
             (fun x c => match unmarshalMessage x (Message c) with
                         | Ok m => Ok {| Message := m |}
                         | Err e => Err e
                         end)); assumption.
  - apply (intoStruct_ignore "content"
             (fun x m => match Json.intoString x (Content m) with
                         | Ok s => Ok {| Content := s |}
                         | Err e => Err e
                         end)); assumption.
Qed.

(** The one member that names [text], a string. *)
Lemma unmarshalTranscription_text pre k s post cur :
  Json.matches "text" k = true ->
  Json.member "text" pre = None -> Json.member "text" post = None ->
  unmarshalTranscription (Json.Object (pre ++ (k, Json.Str s) :: post)) cur =
  Ok {| Text := s |}.
Proof.
  intros Hk Hpre Hpost. cbn [unmarshalTranscription].
  rewrite intoStruct_app.
  rewrite (intoStruct_skip "text"
             (fun x t => match Json.intoString x (Text t) with
                         | Ok s => Ok {| Text := s |}
                         | Err e => Err e
                         end)) by assumption.
  cbn [Json.intoStruct]. rewrite Hk. cbn [Json.intoString].
  apply (intoStruct_skip "text"
           (fun x t => match Json.intoString x (Text t) with
                       | Ok s => Ok {| Text := s |}
                       | Err e => Err e
                       end)). assumption.
Qed.

End Decoding.

Lemma loopOutcome_flag w fuel i in_ rec data evs fl :
  loopOutcome w fuel i in_ rec 0 = (Some (Ok data), (evs, fl)) -> fl = 1%Z.
Proof.
  revert i in_ rec evs. induction fuel as [|fuel IH]; intros i in_ rec evs;
    [discriminate|].
  cbn [loopOutcome]. cbv zeta. destruct (fires w i); cbn [Z.eqb].
  - now intros [= _ _ <-].
  - destruct (status (w_Read w i)); [| |discriminate];
      destruct (loopOutcome w fuel _ _ _ 0) as [r' [evs' fl']] eqn:E';
      intros [= -> _ <-]; eapply IH; eassumption.
Qed.

Section Replies.
Variable parseJSON : string -> Result Json.Value.
Variable w : World.

(** X16.  When the transcription endpoint answers 200 with an object whose
    one member named [text] is a string, that string, as it is, is the user
    message of the request then sent to the chat endpoint, after the
    system prompt, for the model [gpt-4] at temperature 0. *)
Theorem text_forwarded_verbatim (fuel : nat) (req : Request) (resp : Response)
    pre k s post :
  In (EvHTTP req) (trace (main parseJSON w fuel).2) ->
  URL req = transcriptionsURL ->
  w_Do w req = Ok resp -> StatusCode resp = 200%Z ->
  parseJSON (Body resp) = Ok (Json.Object (pre ++ (k, Json.Str s) :: post)) ->
  Json.matches "text" k = true ->
  Json.member "text" pre = None -> Json.member "text" post = None ->
  exists chat,
    In (EvHTTP chat) (trace (main parseJSON w fuel).2) /\
    URL chat = completionsURL /\
    ReqBody chat =
      Marshal
        {| Model := "gpt-4";
           Messages :=
             [ <["role" := "system"]> (<["content" := systemPrompt]> ∅);
               <["role" := "user"]> (<["content" := s]> ∅) ];
           Temperature := 0 |}.
Proof.
  intros Hin Hurl Hdo Hcode Hparse Hk Hpre Hpost.
  assert (HR : transcriptionResult parseJSON (w_Do w req) = Ok s).
  { unfold transcriptionResult. rewrite Hdo, Hcode, Hparse.
    cbn [Z.eqb Pos.eqb negb].
    now rewrite unmarshalTranscription_text. }
  destruct (main_path parseJSON w fuel) as (o & tr & out & HP & Ht & _ & _ & _).
  rewrite Ht in *. clear Ht.
  destruct HP; world_facts; loop_events; members Hin;
    injection Hin as <-; try discriminate Hurl;
    match goal with
    | H : transcriptionResult _ _ = _ |- _ =>
        rewrite HR in H;
        first [discriminate H | injection H as <-]
    end;
    match goal with
    | H : chatResult _ (w_Do w ?c) = _ |- _ => exists c
    end;
    (split; [member | split; reflexivity]).
Qed.



(** X19.  Whatever the recording loop of [run] returns, under the timing of
    the two stores that the world fixes, is what the three tasks (the loop
    and the two goroutines, one atomic action at a time) reach under some
    schedule from their start: the same samples with the flag set, or the
    same read error. *)
Theorem recording_is_interleaving (fuel : nat) :
  match recordLoop w fuel 0 (replicate (Z.to_nat framesPerChunk) 0%Z) []
          (start w) with
  | (Some (Ok recordedData), st') =>
      exists s,
        Tasks.reachable w s /\ Tasks.loop s = Tasks.Stopped /\
        Tasks.recorded s = recordedData /\
        Tasks.flag s = 1%Z /\ stopRecording st' = 1%Z
  | (Some (Err e), _) =>
      exists s err,
        Tasks.reachable w s /\ Tasks.loop s = Tasks.Failed err /\
        e = "error reading from audio stream: " +:+ err
  | (None, _) => True
  end.
Proof.
  pose proof (recordLoop_schedule w fuel 0
                (replicate (Z.to_nat framesPerChunk) 0%Z) [] (start w)
                Tasks.init (atTest_init w (start w) eq_refl)) as H.
  destruct (recordLoop w fuel 0 _ [] (start w)) as [[[data|e]|] st'] eqn:E;
    [| |exact I].
  - destruct H as (sched & s & Hx & Hl & Hr & Hf).
    assert (Hst : stopRecording st' = 1%Z).
    { rewrite recordLoop_outcome in E. cbn [stopRecording start] in E.
      destruct (loopOutcome w fuel 0 _ [] 0) as [r [evs fl]] eqn:EL.
      injection E as -> <-. cbn [stopRecording set_stopRecording].
      eapply loopOutcome_flag. eassumption. }
    exists s. rewrite Hf, Hst. repeat split; try assumption. now exists sched.
  - destruct H as (sched & s & err & Hx & Hl & He).
    exists s, err. repeat split; try assumption. now exists sched.
Qed.

End Replies.

(* ===================================================================== *)
(** * The further properties on the sample executions                     *)
(* ===================================================================== *)

(** In the sample worlds the key is in the environment and the device
    starts; the recording stops at the third test. *)
Ltac ready_here :=
  split; [left; reflexivity | split; [discriminate | repeat split; reflexivity]].

Ltac stops_here :=
  split;
  [ intros [|[|j]] Hj; [split; reflexivity | split; reflexivity | lia]
  | reflexivity ].

Lemma recording_is_reads_witness :
  (recordLoop Cases.fine 3 0 (replicate (Z.to_nat framesPerChunk) 0%Z) []
     (start Cases.fine)).1 = Some (Ok Cases.recording).
Proof.
  pose proof (recording_is_reads Cases.fine 2 3 (start Cases.fine)) as H.
  rewrite H.
  - reflexivity.
  - reflexivity.
  - stops_here.
  - intros j _. reflexivity.
  - lia.
Defined.

Lemma setup_failure_reported_witness :
  trace (main Demo.parse Cases.noHost 3).2 =
    [EvSetJackErrorHandler; EvSetAlsaErrorHandler; EvInitialize] /\
  trace (main Demo.parse Cases.noDevice 3).2 =
    [EvSetJackErrorHandler; EvSetAlsaErrorHandler; EvInitialize;
     EvOpenDefaultStream 1 0 44100 1024; EvTerminate] /\
  trace (main Demo.parse Cases.noStart 3).2 =
    [EvSetJackErrorHandler; EvSetAlsaErrorHandler; EvInitialize;
     EvOpenDefaultStream 1 0 44100 1024; EvStreamStart; EvStreamClose;
     EvTerminate] /\
  stdout (main Demo.parse Cases.noStart 3).2 =
    ["An error occurred: failed to start audio stream: Unanticipated host error" +:+
     String "010" ""].
Proof.
  destruct (setup_failure_reported Demo.parse Cases.noHost 3 "sk-demo")
    as (H1 & _ & _); [now left | discriminate |].
  destruct (setup_failure_reported Demo.parse Cases.noDevice 3 "sk-demo")
    as (_ & H2 & _); [now left | discriminate |].
  destruct (setup_failure_reported Demo.parse Cases.noStart 3 "sk-demo")
    as (_ & _ & H3); [now left | discriminate |].
  destruct (H1 "Host API not found" eq_refl) as (_ & _ & T1).
  destruct (H2 "Device unavailable" eq_refl eq_refl) as (_ & _ & T2).
  destruct (H3 "Unanticipated host error" eq_refl eq_refl eq_refl)
    as (_ & O3 & T3).
  repeat split; assumption.
Defined.

Lemma read_error_aborts_witness :
  (main Demo.parse Cases.overflow 3).1 = Some 1%Z /\
  stdout (main Demo.parse Cases.overflow 3).2 =
    ["An error occurred: error reading from audio stream: Input overflowed" +:+
     String "010" ""] /\
  files (main Demo.parse Cases.overflow 3).2 = w_files Cases.overflow.
Proof.
  destruct (read_error_aborts Demo.parse Cases.overflow 3 "sk-demo" 1
              "Input overflowed") as (H1 & H2 & _ & H3).
  - ready_here.
  - intros j Hj. destruct j as [|j]; [split; reflexivity | lia].
  - reflexivity.
  - reflexivity.
  - lia.
  - repeat split; assumption.
Defined.

Lemma stop_failure_reported_witness :
  (main Demo.parse Cases.noStop 3).1 = Some 1%Z /\
  stdout (main Demo.parse Cases.noStop 3).2 =
    ["An error occurred: failed to stop audio stream: Stream is stopped" +:+
     String "010" ""] /\
  files (main Demo.parse Cases.noStop 3).2 = w_files Cases.noStop.
Proof.
  destruct (stop_failure_reported Demo.parse Cases.noStop 3 "sk-demo" 2
              "Stream is stopped") as (H1 & H2 & _ & H3).
  - ready_here.
  - stops_here.
  - lia.
  - reflexivity.
  - repeat split; assumption.
Defined.



Lemma resources_released_witness :
  exists t,
    trace (main Demo.parse Cases.fine 3).2 =
    t ++ [EvSpinnerStop; EvStreamClose; EvTerminate].
Proof.
  destruct (resources_released Demo.parse Cases.fine 3 0) as (H & _).
  - reflexivity.
  - apply H. vm_compute. tauto.
Defined.



Lemma requests_authorized_witness :
  In (EvHTTP
        (transcriptionRequest Cases.dotenvKey "sk-file" tempFileName
           (Wav.encode sampleRate 16 channels 1 Cases.recording)))
    (trace (main Demo.parse Cases.dotenvKey 3).2) /\
  Header
    (transcriptionRequest Cases.dotenvKey "sk-file" tempFileName
       (Wav.encode sampleRate 16 channels 1 Cases.recording))
    !! "Authorization" = Some "Bearer sk-file" /\
  (length (http (trace (main Demo.parse Cases.dotenvKey 3).2)) <= 2)%nat.
Proof.
  assert (Hin : In (EvHTTP
                      (transcriptionRequest Cases.dotenvKey "sk-file"
                         tempFileName
                         (Wav.encode sampleRate 16 channels 1 Cases.recording)))
                  (trace (main Demo.parse Cases.dotenvKey 3).2)).
  { apply in_http. vm_compute. left; reflexivity. }
  destruct (requests_authorized Demo.parse Cases.dotenvKey 3 "sk-file")
    as (Hlen & H).
  - right. split; [reflexivity|]. eexists. split; [reflexivity|].
    split; [|cbn; tauto].
    apply (bool_decide_unpack _). vm_compute. exact I.
  - destruct (H _ Hin) as (_ & _ & Ha & _).
    split; [exact Hin | split; [exact Ha | exact Hlen]].
Defined.

Lemma upload_is_recording_witness :
  exists recordedData,
    (recordLoop Cases.fine 3 0 (replicate (Z.to_nat framesPerChunk) 0%Z) []
       (start Cases.fine)).1 = Some (Ok recordedData) /\
    ReqBody
      (transcriptionRequest Cases.fine "sk-demo" tempFileName
         (Wav.encode sampleRate 16 channels 1 Cases.recording)) =
      Multipart
        [FormFile "file" "temp.wav" (Wav.encode 44100 16 1 1 recordedData);
         FormField "model" "whisper-1"].
Proof.
  apply (upload_is_recording Demo.parse Cases.fine 3).
  - apply in_http. vm_compute. left; reflexivity.
  - reflexivity.
Defined.

Lemma text_forwarded_verbatim_witness :
  exists chat,
    In (EvHTTP chat) (trace (main Demo.parse Cases.fine 3).2) /\
    URL chat = completionsURL /\
    ReqBody chat =
      Marshal
        {| Model := "gpt-4";
           Messages :=
             [ <["role" := "system"]> (<["content" := systemPrompt]> ∅);
               <["role" := "user"]> (<["content" := "list files"]> ∅) ];
           Temperature := 0 |}.
Proof.
  apply (text_forwarded_verbatim Demo.parse Cases.fine 3
           (transcriptionRequest Cases.fine "sk-demo" tempFileName
              (Wav.encode sampleRate 16 channels 1 Cases.recording))
           {| StatusCode := 200; Body := Demo.textBody |}
           [] "text" "list files" []).
  - apply in_http. vm_compute. left; reflexivity.
  - reflexivity.
  - reflexivity.
  - reflexivity.
  - reflexivity.
  - reflexivity.
  - reflexivity.
  - reflexivity.
Defined.


